(** * Balsam site: job acquisition and processing pipeline

    A shallow embedding of [balsam/site/job_source.py] and
    [balsam/site/service/processing.py], followed by the properties of the
    natural-language specification that concern them.

    Python integers are [Z]; Python floats (clock readings, minutes) are
    idealised as exact rationals [Q]; dictionaries are [gmap]s; exceptions
    are values of [PyExc] carried by explicit results. *)

From Stdlib Require Import ZArith QArith Qround Lia Lqa.
From stdpp Require Import base option list strings gmap pretty.

Close Scope Q_scope.
Local Open Scope Z_scope.

(* ===================================================================== *)
(** * Part I: the embedding                                               *)
(* ===================================================================== *)

(** ** Python exceptions *)

(** [except Exception] catches the instances of [Exception]; what derives
    from [BaseException] only ([KeyboardInterrupt], [SystemExit],
    [GeneratorExit]) passes through such a handler. *)
Inductive ExcBase := FromException | FromBaseExceptionOnly.

Record PyExc := mkExc {
  exc_base : ExcBase;
  exc_class : string;
  exc_text : string          (* str(exc) *)
}.

Definition is_Exception (e : PyExc) : bool :=
  match exc_base e with FromException => true | FromBaseExceptionOnly => false end.

Definition KeyError (key : string) : PyExc := mkExc FromException "KeyError" key.
Definition FileNotFoundError (what : string) : PyExc :=
  mkExc FromException "FileNotFoundError" what.
Definition NotADirectoryError (what : string) : PyExc :=
  mkExc FromException "NotADirectoryError" what.
Definition IsADirectoryError (what : string) : PyExc :=
  mkExc FromException "IsADirectoryError" what.
Definition FileExistsError (what : string) : PyExc :=
  mkExc FromException "FileExistsError" what.

Definition is_FileNotFoundError (e : PyExc) : bool :=
  bool_decide (exc_class e = "FileNotFoundError").

(** The result of a call: a value, or a raised exception. *)
Inductive Res (A : Type) :=
| Ok (a : A)
| Raise (e : PyExc).
Arguments Ok {A} a.
Arguments Raise {A} e.

(* ===================================================================== *)
(** ** Node-range prefetch heuristic: [get_node_ranges]                   *)
(* ===================================================================== *)

Module NodeRanges.

(** A bucket is the tuple [(lower, num_nodes, num_acquire)]. *)
Definition Bucket : Type := Z * Z * Z.

Definition bucket_lower (b : Bucket) : Z := fst (fst b).
Definition bucket_upper (b : Bucket) : Z := snd (fst b).
Definition bucket_acquire (b : Bucket) : Z := snd b.

(** The [while num_nodes:] loop.  A negative [num_nodes] never reaches
    zero, so the loop is given fuel; [None] is "still looping". *)
Fixpoint node_ranges_loop (fuel : nat) (num_nodes num_acquire : Z)
         (single_node_prefetch_factor : Z) (result : list Bucket)
  : option (list Bucket) :=
  if num_nodes =? 0 then Some result
  else
    match fuel with
    | O => None
    | S fuel' =>
        let lower := Z.min num_nodes (num_nodes / 2 + 1) in
        let result' :=
          if 1 <? num_nodes
          then result ++ [(lower, num_nodes, num_acquire)]
          else result ++ [(lower, num_nodes, single_node_prefetch_factor)] in
        node_ranges_loop fuel' (lower - 1) (num_acquire * 2)
                         single_node_prefetch_factor result'
    end.

Definition get_node_ranges_fuel (fuel : nat)
           (num_nodes prefetch_factor single_node_prefetch_factor : Z)
  : option (list Bucket) :=
  node_ranges_loop fuel num_nodes prefetch_factor
                   single_node_prefetch_factor [].

(** [num_nodes] iterations always suffice when [num_nodes >= 0]
    (lemma [get_node_ranges_fuel_enough]). *)
Definition get_node_ranges
           (num_nodes prefetch_factor single_node_prefetch_factor : Z)
  : option (list Bucket) :=
  get_node_ranges_fuel (Z.to_nat num_nodes) num_nodes prefetch_factor
                       single_node_prefetch_factor.

(** Node counts covered by a bucket, and how many buckets cover [k]. *)
Definition covers (b : Bucket) (k : Z) : bool :=
  (bucket_lower b <=? k) && (k <=? bucket_upper b).

Definition cover_count (l : list Bucket) (k : Z) : nat :=
  length (filter (fun b => covers b k = true) l).

(** The remaining node count at halving step [i], and the bucket the loop
    appends at that step. *)
Definition remaining (num_nodes : Z) (i : nat) : Z :=
  num_nodes / 2 ^ Z.of_nat i.

(** The bucket of halving step [i] in closed form. *)
Definition bucket_at (num_nodes prefetch_factor single_node_prefetch_factor : Z)
           (i : nat) : Bucket :=
  let r := remaining num_nodes i in
  (r / 2 + 1, r,
   if 1 <? r then prefetch_factor * 2 ^ Z.of_nat i
   else single_node_prefetch_factor).

(** Number of halving steps until the remaining count is zero. *)
Definition num_buckets (num_nodes : Z) : nat := S (Z.to_nat (Z.log2 num_nodes)).

Definition buckets (num_nodes prefetch_factor single : Z) : list Bucket :=
  map (bucket_at num_nodes prefetch_factor single) (seq 0 (num_buckets num_nodes)).

(** ceil(n / 2), as the specification words the lower bound. *)
Definition ceil_half (n : Z) : Z := (n + 1) / 2.

(** The specification's wording of a bucket above one node:
    it covers [(ceil(n/2)+1 .. n)]. *)
Definition lower_from_ceil (b : Bucket) : Prop :=
  1 < bucket_upper b -> bucket_lower b = ceil_half (bucket_upper b) + 1.

Definition ranges_as_worded (num_nodes prefetch_factor single : Z) : Prop :=
  forall l, get_node_ranges num_nodes prefetch_factor single = Some l ->
            Forall lower_from_ceil l.

End NodeRanges.

(* ===================================================================== *)
(** ** Jobs                                                               *)
(* ===================================================================== *)

(** A path as [pathlib] sees it: an anchor flag and the components. *)
Record PurePath := mkPath {
  path_absolute : bool;
  path_parts : list string
}.

#[global] Instance PurePath_eq_dec : EqDecision PurePath.
Proof. solve_decision. Defined.

(** An absolute path (what [os.getcwd()] and [Path.resolve()] return):
    its components from the root. *)
Definition AbsPath : Type := list string.

(** [Path.joinpath] on an absolute base: an absolute right operand
    replaces the base. *)
Definition joinpath (base : AbsPath) (other : PurePath) : AbsPath :=
  if path_absolute other then path_parts other
  else base ++ path_parts other.

Definition path_of_name (name : string) : PurePath := mkPath false [name].

(** The local copy of a Job; [job_state] holds the string value of the
    [JobState] enum, [job_state_data] the optional metadata dictionary. *)
Record Job := mkJob {
  job_id : Z;
  job_app_id : Z;
  job_workdir : PurePath;
  job_state : string;
  job_state_data : option (gmap string string);
  job_state_timestamp : option nat
}.

(** Modelled from the spec: the enum [JobState] of [balsam/schemas/job.py]
    is not among the sources; the specification names the terminal failure
    state FAILED, which is the value taken for [JobState.failed]. *)
Definition JobState_failed : string := "FAILED".

Definition set_state (s : string) (j : Job) : Job :=
  mkJob (job_id j) (job_app_id j) (job_workdir j) s
        (job_state_data j) (job_state_timestamp j).

Definition set_state_data (d : option (gmap string string)) (j : Job) : Job :=
  mkJob (job_id j) (job_app_id j) (job_workdir j) (job_state j)
        d (job_state_timestamp j).

Definition set_state_timestamp (t : option nat) (j : Job) : Job :=
  mkJob (job_id j) (job_app_id j) (job_workdir j) (job_state j)
        (job_state_data j) t.

(* ===================================================================== *)
(** ** Job sources: [FixedDepthJobSource] and [SynchronousJobSource]      *)
(* ===================================================================== *)

Module JobSource.

(** A Python number: [int] or [float] (floats idealised as rationals). *)
Inductive PyNum :=
| PyInt (z : Z)
| PyFloat (q : Q).

Definition num_value (n : PyNum) : Q :=
  match n with
  | PyInt z => inject_Z z
  | PyFloat q => q
  end.

(** Python's [round(x)] on a float: nearest integer, ties to even. *)
Definition py_round (x : Q) : Z :=
  let f := Qfloor x in
  match Qcompare (x - inject_Z f) (1 # 2) with
  | Lt => f
  | Gt => f + 1
  | Eq => if Z.even f then f else f + 1
  end.

(** Keyword arguments of [session.acquire_jobs]. *)
Record AcquireRequest := mkRequest {
  max_num_jobs : Z;
  max_nodes_per_job : option Z;
  max_aggregate_nodes : option Q;
  max_wall_time_min : option PyNum;
  serial_only : bool;
  filter_tags : gmap string string;
  states : gset string
}.

(** Requests issued to the coordination service, oldest first. *)
Inductive ApiCall :=
| BatchJobGet (site_id scheduler_id : Z)
| SessionCreate (site_id : Z) (batch_job_id : option Z)
| SessionTick (session_id : Z)
| SessionDelete (session_id : Z)
| SessionAcquire (session_id : Z) (req : AcquireRequest).

Definition is_tick (c : ApiCall) : bool :=
  match c with SessionTick _ => true | _ => false end.

Definition is_delete (c : ApiCall) : bool :=
  match c with SessionDelete _ => true | _ => false end.

(** The attributes [__init__] stores; [self.queue] and the session live in
    the loop state below. *)
Record FixedDepthJobSource := mkFixedDepth {
  fd_site_id : Z;
  fd_prefetch_depth : Z;
  fd_filter_tags : gmap string string;
  fd_states : gset string;
  fd_serial_only : bool;
  fd_max_wall_time_min : option Z;
  fd_max_nodes_per_job : option Z;
  fd_max_aggregate_nodes : option Q;
  fd_scheduler_id : option Z;
  fd_start_time : Q
}.

Record SynchronousJobSource := mkSynchronous {
  sy_site_id : Z;
  sy_filter_tags : gmap string string;
  sy_states : gset string;
  sy_serial_only : bool;
  sy_max_wall_time_min : option Z;
  sy_scheduler_id : option Z;
  sy_start_time : Q
}.

(** [(time.time() - self.start_time) / 60.0] *)
Definition elapsed_min (now start_time : Q) : Q :=
  ((now - start_time) / 60)%Q.

(** The [request_time] of [FixedDepthJobSource._get_acquire_parameters].
    [if self.max_wall_time_min:] is false for [None] and for [0]. *)
Definition fixed_depth_request_time (max_wall : option Z) (start_time now : Q)
  : option PyNum :=
  match max_wall with
  | Some m =>
      if negb (m =? 0)
      then Some (PyFloat (inject_Z m - elapsed_min now start_time)%Q)
      else None
  | None => None
  end.

Definition _get_acquire_parameters (self : FixedDepthJobSource)
           (now : Q) (num_jobs : Z) : AcquireRequest :=
  let request_time :=
    fixed_depth_request_time (fd_max_wall_time_min self)
                             (fd_start_time self) now in
  mkRequest num_jobs (fd_max_nodes_per_job self)
            (fd_max_aggregate_nodes self) request_time
            (fd_serial_only self) (fd_filter_tags self) (fd_states self).

(** The [request_time] of [SynchronousJobSource.get_jobs]. *)
Definition synchronous_request_time (max_wall : option Z) (start_time now : Q)
  : option PyNum :=
  match max_wall with
  | Some m =>
      if negb (m =? 0)
      then Some (PyInt (py_round (inject_Z m - elapsed_min now start_time)%Q))
      else None
  | None => None
  end.

(** The two variants pass the same remaining wall time (as numbers). *)
Definition same_request_time (max_wall : option Z) (start_time now : Q) : Prop :=
  match fixed_depth_request_time max_wall start_time now,
        synchronous_request_time max_wall start_time now with
  | Some a, Some b => (num_value a == num_value b)%Q
  | None, None => True
  | _, _ => False
  end.

(** What the process sees of the service through one session: the calls
    it has issued.  Replies are inputs of the operations below. *)
Record SyncState := mkSyncState {
  sync_session : Z;
  sync_calls : list ApiCall
}.

(** [SynchronousJobSource.get_jobs]; [reply] is the service's answer to
    the acquisition call, [now] the reading of [time.time()]. *)
Definition sync_get_jobs (self : SynchronousJobSource) (now : Q)
           (reply : AcquireRequest -> Res (list Job))
           (max_num : Z) (max_nodes : option Z) (max_aggregate : option Q)
           (st : SyncState) : Res (list Job) * SyncState :=
  let request_time :=
    synchronous_request_time (sy_max_wall_time_min self)
                             (sy_start_time self) now in
  let req := mkRequest max_num max_nodes max_aggregate request_time
                       (sy_serial_only self) (sy_filter_tags self)
                       (sy_states self) in
  let st' := mkSyncState (sync_session st)
                         (sync_calls st ++ [SessionAcquire (sync_session st) req]) in
  (reply req, st').

(** Modelled from the spec: the class [Queue] of [balsam/site/util.py] is
    not among the sources; it is the process-safe FIFO of the
    specification, with [qsize], a non-blocking push and a non-blocking
    pop, taken here as [Queue()] constructs it, with no capacity given, so
    that [put_nowait] always appends.

    State of the prefetch loop: that queue, and the calls issued so far. *)
Record LoopState := mkLoopState {
  loop_session : Z;
  loop_queue : list Job;
  loop_calls : list ApiCall
}.

Definition qsize (st : LoopState) : Z := Z.of_nat (length (loop_queue st)).

Definition put_nowait (j : Job) (q : list Job) : list Job := q ++ [j].

(** [for job in jobs: self.queue.put_nowait(job)] *)
Definition put_all (jobs : list Job) (q : list Job) : list Job :=
  fold_left (fun acc j => put_nowait j acc) jobs q.

(** [fetch_count = max(0, self.prefetch_depth - qsize)] *)
Definition fetch_count (self : FixedDepthJobSource) (st : LoopState) : Z :=
  Z.max 0 (fd_prefetch_depth self - qsize st).

(** One pass through the body of [while not EXIT_FLAG] in [_run].  An
    exception of the acquisition call is not caught and leaves the loop. *)
Definition fetch_iteration (self : FixedDepthJobSource) (now : Q)
           (reply : AcquireRequest -> Res (list Job)) (st : LoopState)
  : Res unit * LoopState :=
  let n := fetch_count self st in
  if negb (n =? 0) then
    let params := _get_acquire_parameters self now n in
    let calls := loop_calls st ++ [SessionAcquire (loop_session st) params] in
    match reply params with
    | Ok jobs =>
        (Ok tt,
         mkLoopState (loop_session st) (put_all jobs (loop_queue st)) calls)
    | Raise e => (Raise e, mkLoopState (loop_session st) (loop_queue st) calls)
    end
  else (Ok tt, st).

(** [FixedDepthJobSource.get_jobs]: up to [max_num_jobs] non-blocking
    pops.  Returns the fetched jobs and the remaining queue. *)
Fixpoint take_jobs (n : nat) (q : list Job) : list Job * list Job :=
  match n, q with
  | S n', j :: q' => let '(got, rest) := take_jobs n' q' in (j :: got, rest)
  | _, _ => ([], q)
  end.

Definition fixed_depth_get_jobs (max_num_jobs : Z) (st : LoopState)
  : list Job * LoopState :=
  let '(got, rest) := take_jobs (Z.to_nat max_num_jobs) (loop_queue st) in
  (got, mkLoopState (loop_session st) rest (loop_calls st)).

(** What happens around the loop, seen from the source process: a
    fetch cycle, consumers popping the shared queue, or a signal. *)
Inductive LoopEvent :=
| Cycle (now : Q) (reply : AcquireRequest -> Res (list Job))
| Consumed (n : Z)
| SignalReceived.

(** Outcome of the [while] loop of [_run] on a finite run of events. *)
Inductive LoopOutcome :=
| StillLooping (st : LoopState)
| LoopLeft (st : LoopState)
| LoopRaised (e : PyExc) (st : LoopState).

Fixpoint run_loop (self : FixedDepthJobSource) (events : list LoopEvent)
         (exit_flag : bool) (st : LoopState) : LoopOutcome :=
  match events with
  | [] => StillLooping st
  | SignalReceived :: rest => run_loop self rest true st
  | Consumed n :: rest =>
      run_loop self rest exit_flag (snd (fixed_depth_get_jobs n st))
  | Cycle now reply :: rest =>
      if exit_flag then LoopLeft st
      else match fetch_iteration self now reply st with
           | (Ok _, st') => run_loop self rest exit_flag st'
           | (Raise e, st') => LoopRaised e st'
           end
  end.

End JobSource.


(* ===================================================================== *)
(** ** The session lease: [SessionThread] and [terminate]                 *)
(* ===================================================================== *)

Module Session.
Import JobSource.

(** A [threading.Timer] is a thread: it waits for its interval, then calls
    its function unless [cancel()] came first.  The function here is
    always [_schedule_next_tick], whose statements are the [TickPc]s. *)
Inductive TickPc :=
| AtNewTimer      (* self.timer = threading.Timer(TICK_PERIOD, ...) *)
| AtStart         (* self.timer.start() *)
| AtTick.         (* self._do_tick() *)

Inductive TimerState :=
| Created                 (* constructed, not started *)
| Waiting                 (* started, interval running *)
| Cancelled               (* cancel() before the function was called *)
| Running (pc : TickPc)   (* the function is executing, next statement pc *)
| Finished.

#[global] Instance TickPc_eq_dec : EqDecision TickPc.
Proof. solve_decision. Defined.
#[global] Instance TimerState_eq_dec : EqDecision TimerState.
Proof. solve_decision. Defined.

Inductive LogRecord :=
| Warning (msg : string).

(** Process-wide state: requests issued to the service, log records, and
    the Timer objects (a Timer's identity is its index). *)
Record World := mkWorld {
  w_calls : list ApiCall;
  w_log : list LogRecord;
  w_timers : list TimerState
}.

(** The attributes of a [SessionThread] object: [self.session] (its id,
    and the batch job it was created with) and [self.timer], a reference
    into [w_timers]. *)
Record SessionThread := mkSessionThread {
  session : Z;
  session_batch_job_id : option Z;
  timer : nat
}.

Record Machine := mkMachine {
  self : SessionThread;
  world : World
}.

(** Replies of the coordination service. *)
Record Service := mkService {
  batch_job_get : Z -> Z -> Res Z;          (* BatchJob.objects.get(...).id *)
  session_create : Z -> option Z -> Res Z;  (* Session.objects.create(...).id *)
  session_tick : Z -> Res unit
}.

Definition DoesNotExist : PyExc := mkExc FromException "DoesNotExist" "".

Definition is_DoesNotExist (e : PyExc) : bool :=
  bool_decide (exc_class e = "DoesNotExist").

Definition lookup_warning (scheduler_id : Z) : string :=
  "Failed to lookup BatchJob with scheduler_id " +:+ pretty scheduler_id +:+ ". "
  +:+ "Reverting to a Session without a BatchJob. "
  +:+ "The run will still work, but Jobs will not be associated with a BatchJob.".

Definition add_call (c : ApiCall) (w : World) : World :=
  mkWorld (w_calls w ++ [c]) (w_log w) (w_timers w).

Definition add_log (r : LogRecord) (w : World) : World :=
  mkWorld (w_calls w) (w_log w ++ [r]) (w_timers w).

Definition set_timers (ts : list TimerState) (w : World) : World :=
  mkWorld (w_calls w) (w_log w) ts.

(** [threading.Timer(...)]: a fresh object, returned by reference. *)
Definition new_timer (w : World) : nat * World :=
  (length (w_timers w), set_timers (w_timers w ++ [Created]) w).

Definition RuntimeError (what : string) : PyExc :=
  mkExc FromException "RuntimeError" what.

(** [Thread.start()]: a thread can be started once.  Starting a Timer
    cancelled beforehand runs a thread that returns at once. *)
Definition timer_start (t : nat) (w : World) : Res World :=
  match w_timers w !! t with
  | Some Created => Ok (set_timers (<[t := Waiting]> (w_timers w)) w)
  | Some Cancelled => Ok w
  | _ => Raise (RuntimeError "threads can only be started once")
  end.

(** [Timer.cancel()]: sets the finished flag; a function already called
    is not affected. *)
Definition timer_cancel (t : nat) (w : World) : World :=
  match w_timers w !! t with
  | Some Created | Some Waiting => set_timers (<[t := Cancelled]> (w_timers w)) w
  | _ => w
  end.

(** [_do_tick]: [self.session.tick()], a request to the service. *)
Definition _do_tick (svc : Service) (s : SessionThread) (w : World)
  : Res unit * World :=
  (session_tick svc (session s), add_call (SessionTick (session s)) w).

(** [_schedule_next_tick] run in one piece, as [__init__] calls it: a new
    Timer becomes [self.timer], is started, and one tick is sent. *)
Definition _schedule_next_tick (svc : Service) (s : SessionThread) (w : World)
  : Res SessionThread * World :=
  let '(t, w1) := new_timer w in
  let s1 := mkSessionThread (session s) (session_batch_job_id s) t in
  match timer_start t w1 with
  | Raise e => (Raise e, w1)
  | Ok w2 =>
      match _do_tick svc s1 w2 with
      | (Ok _, w3) => (Ok s1, w3)
      | (Raise e, w3) => (Raise e, w3)
      end
  end.

(** [SessionThread.__init__] *)
Definition SessionThread_init (svc : Service) (site_id : Z)
           (scheduler_id : option Z) (w : World) : Res SessionThread * World :=
  let lookup : Res (option Z) * World :=
    match scheduler_id with
    | None => (Ok None, w)
    | Some sch =>
        let w1 := add_call (BatchJobGet site_id sch) w in
        match batch_job_get svc site_id sch with
        | Ok bid => (Ok (Some bid), w1)
        | Raise e =>
            if is_DoesNotExist e
            then (Ok None, add_log (Warning (lookup_warning sch)) w1)
            else (Raise e, w1)
        end
    end in
  match lookup with
  | (Raise e, w1) => (Raise e, w1)
  | (Ok batch_job_id, w1) =>
      let w2 := add_call (SessionCreate site_id batch_job_id) w1 in
      match session_create svc site_id batch_job_id with
      | Raise e => (Raise e, w2)
      | Ok sid => _schedule_next_tick svc (mkSessionThread sid batch_job_id 0) w2
      end
  end.

(** *** The lease under interleaving

    The main thread and the timer threads share [self.timer] and the
    Timer objects.  An action is one statement of one thread
    ([self.timer.daemon = True] changes nothing that is modelled).
    [session.delete()] is the request [delete_session(session_id)] of the
    specification's service interface; what the client library does
    around it is not among the sources. *)
Inductive Action :=
| Step (t : nat)     (* timer thread t: interval over, or next statement *)
| Cancel             (* main thread: self.session_thread.timer.cancel() *)
| Delete.            (* main thread: self.session.delete() *)

Definition set_world (w : World) (m : Machine) : Machine :=
  mkMachine (self m) w.

Definition set_timer_state (t : nat) (st : TimerState) (m : Machine) : Machine :=
  set_world (set_timers (<[t := st]> (w_timers (world m))) (world m)) m.

(** One statement of timer thread [t]. *)
Definition step_timer (t : nat) (m : Machine) : Machine :=
  match w_timers (world m) !! t with
  | Some Waiting => set_timer_state t (Running AtNewTimer) m
  | Some (Running AtNewTimer) =>
      let '(t', w1) := new_timer (world m) in
      let s1 := mkSessionThread (session (self m))
                                (session_batch_job_id (self m)) t' in
      set_timer_state t (Running AtStart) (mkMachine s1 w1)
  | Some (Running AtStart) =>
      match timer_start (timer (self m)) (world m) with
      | Ok w1 => set_timer_state t (Running AtTick) (set_world w1 m)
      | Raise _ => set_timer_state t Finished m
      end
  | Some (Running AtTick) =>
      set_timer_state t Finished
        (set_world (add_call (SessionTick (session (self m))) (world m)) m)
  | _ => m
  end.

Definition step (a : Action) (m : Machine) : Machine :=
  match a with
  | Step t => step_timer t m
  | Cancel => set_world (timer_cancel (timer (self m)) (world m)) m
  | Delete => set_world (add_call (SessionDelete (session (self m))) (world m)) m
  end.

Definition run (acts : list Action) (m : Machine) : Machine :=
  fold_left (fun m a => step a m) acts m.

(** [SynchronousJobSource.terminate] (the same two statements end
    [FixedDepthJobSource._run]). *)
Definition terminate (m : Machine) : Machine := run [Cancel; Delete] m.

Definition ticks (m : Machine) : list ApiCall :=
  filter (fun c => is_tick c = true) (w_calls (world m)).

Definition deletes (m : Machine) : list ApiCall :=
  filter (fun c => is_delete c = true) (w_calls (world m)).

(** No timer thread is inside [_schedule_next_tick]. *)
Definition is_running (st : TimerState) : bool :=
  match st with Running _ => true | _ => false end.

Definition quiescent (m : Machine) : bool :=
  forallb (fun st => negb (is_running st)) (w_timers (world m)).

Definition live (st : TimerState) : bool :=
  match st with Created | Waiting => true | _ => false end.

(** The machine a successful [__init__] leaves behind. *)
Definition machine_of (r : Res SessionThread * World) : option Machine :=
  match r with
  | (Ok s, w) => Some (mkMachine s w)
  | (Raise _, _) => None
  end.

(** A timer that will never call its function (again). *)
Definition settled (st : TimerState) : bool :=
  match st with Cancelled | Finished => true | _ => false end.

Definition at_new_timer (st : TimerState) : bool :=
  bool_decide (st = Running AtNewTimer).

(** What holds of the Timer objects of one [SessionThread] at every
    moment: a Timer not yet expired or cancelled is the one [self.timer]
    refers to; while a thread is about to replace [self.timer] there is no
    such Timer, and there is one such thread at most. *)
Record lease_invariant (ts : list TimerState) (self_timer : nat) : Prop := {
  live_is_self : forall t st,
    ts !! t = Some st -> live st = true -> t = self_timer;
  new_excludes_live : forall t t' st',
    ts !! t = Some (Running AtNewTimer) -> ts !! t' = Some st' ->
    live st' = false;
  new_is_unique : forall t t',
    ts !! t = Some (Running AtNewTimer) ->
    ts !! t' = Some (Running AtNewTimer) -> t = t'
}.

Definition machine_invariant (m : Machine) : Prop :=
  lease_invariant (w_timers (world m)) (timer (self m)).

Definition all_settled (m : Machine) : Prop :=
  Forall (fun st => settled st = true) (w_timers (world m)).

(** The specification's wording of the lease's [close()]: a second close
    changes nothing, and no tick follows a close. *)
Definition second_close_is_noop (m : Machine) : Prop :=
  world (terminate (terminate m)) = world (terminate m).

Definition silent_after_close (m : Machine) : Prop :=
  forall later, ticks (run later (terminate m)) = ticks (terminate m).

End Session.


(* ===================================================================== *)
(** ** The processing worker: [job_context], [transition], [run_worker]   *)
(* ===================================================================== *)

Module Processing.

(** What [sys.stdout] / [sys.stderr] may refer to. *)
Inductive Stream :=
| StdStream (name : string)
| FileStream (p : AbsPath).

#[global] Instance Stream_eq_dec : EqDecision Stream.
Proof. solve_decision. Defined.

(** The part of the process environment the worker touches: current
    directory, the two stream bindings, the directories and files that
    exist, and what was written to which stream. *)
Record ProcEnv := mkEnv {
  cwd : AbsPath;
  stdout : Stream;
  stderr : Stream;
  dirs : list AbsPath;
  files : list AbsPath;
  written : list (Stream * string)
}.

Definition set_cwd (p : AbsPath) (e : ProcEnv) : ProcEnv :=
  mkEnv p (stdout e) (stderr e) (dirs e) (files e) (written e).

Definition set_stdout (s : Stream) (e : ProcEnv) : ProcEnv :=
  mkEnv (cwd e) s (stderr e) (dirs e) (files e) (written e).

Definition set_stderr (s : Stream) (e : ProcEnv) : ProcEnv :=
  mkEnv (cwd e) (stdout e) s (dirs e) (files e) (written e).

Definition set_dirs (d : list AbsPath) (e : ProcEnv) : ProcEnv :=
  mkEnv (cwd e) (stdout e) (stderr e) d (files e) (written e).

Definition set_files (f : list AbsPath) (e : ProcEnv) : ProcEnv :=
  mkEnv (cwd e) (stdout e) (stderr e) (dirs e) f (written e).

Definition is_dir (e : ProcEnv) (p : AbsPath) : bool := bool_decide (p ∈ dirs e).
Definition is_file (e : ProcEnv) (p : AbsPath) : bool := bool_decide (p ∈ files e).

(** [os.getcwd()] *)
Definition getcwd (e : ProcEnv) : Res AbsPath :=
  if is_dir e (cwd e) then Ok (cwd e) else Raise (FileNotFoundError "getcwd").

(** [os.chdir(p)] *)
Definition chdir (p : AbsPath) (e : ProcEnv) : Res ProcEnv :=
  if is_dir e p then Ok (set_cwd p e)
  else if is_file e p then Raise (NotADirectoryError "chdir")
  else Raise (FileNotFoundError "chdir").

(** The proper ancestors of a path, the root first. *)
Fixpoint ancestors (p : AbsPath) : list AbsPath :=
  match p with
  | [] => []
  | x :: rest => [] :: map (cons x) (ancestors rest)
  end.

Definition parent (p : AbsPath) : AbsPath := removelast p.

(** [p.mkdir(parents=True, exist_ok=True)]: the missing ancestors and [p]
    itself are created; what exists as a directory is left alone. *)
Definition mkdir_parents (p : AbsPath) (e : ProcEnv) : Res ProcEnv :=
  if is_file e p then Raise (FileExistsError "mkdir")
  else if existsb (is_file e) (ancestors p) then Raise (NotADirectoryError "mkdir")
  else Ok (set_dirs (dirs e ++ filter (fun d => d ∉ dirs e) (ancestors p ++ [p])) e).

(** [open(p, "a")]: the file is created when missing. *)
Definition open_append (p : AbsPath) (e : ProcEnv) : Res (Stream * ProcEnv) :=
  if is_dir e p then Raise (IsADirectoryError "open")
  else if is_file e (parent p) then Raise (NotADirectoryError "open")
  else if negb (is_dir e (parent p)) then Raise (FileNotFoundError "open")
  else Ok (FileStream p, if is_file e p then e else set_files (files e ++ [p]) e).

(** [sys.stdout.write(s)]: the text goes to whatever [sys.stdout] is bound to. *)
Definition stdout_write (s : string) (e : ProcEnv) : ProcEnv :=
  mkEnv (cwd e) (stdout e) (stderr e) (dirs e) (files e)
        (written e ++ [(stdout e, s)]).

(** Running a block on a threaded value [S]: result, value, environment. *)
Definition Block (S : Type) : Type := S -> ProcEnv -> Res unit * S * ProcEnv.

(** The first [try:] of [job_context]: change into [workdir], creating it
    when [os.chdir] reports it missing. *)
Definition job_context_enter (workdir : AbsPath) (e : ProcEnv) : Res ProcEnv :=
  match chdir workdir e with
  | Ok e1 => Ok e1
  | Raise x =>
      if is_FileNotFoundError x then
        match mkdir_parents workdir e with
        | Raise y => Raise y
        | Ok e1 => chdir workdir e1
        end
      else Raise x
  end.

(** The second [try:] block of [job_context], with the [with] body at
    [yield]. *)
Definition job_context_try {S : Type} (workdir : AbsPath)
           (stdout_filename : string) (body : Block S)
           (s : S) (e : ProcEnv) : Res unit * S * ProcEnv :=
  match open_append (joinpath workdir (path_of_name stdout_filename)) e with
  | Raise x => (Raise x, s, e)
  | Ok (fp, e1) => body s (set_stderr fp (set_stdout fp e1))
  end.

(** The [finally:] clause of [job_context]. *)
Definition job_context_finally {S : Type} (old_cwd : AbsPath)
           (old_stdout old_stderr : Stream)
           (r : Res unit * S * ProcEnv) : Res unit * S * ProcEnv :=
  let '(o, s, e) := r in
  match chdir old_cwd e with
  | Raise x => (Raise x, s, e)
  | Ok e1 => (o, s, set_stderr old_stderr (set_stdout old_stdout e1))
  end.

(** [with job_context(workdir, stdout_filename): body] *)
Definition job_context {S : Type} (workdir : AbsPath)
           (stdout_filename : string) (body : Block S)
           (s : S) (e : ProcEnv) : Res unit * S * ProcEnv :=
  let old_stdout := stdout e in
  let old_stderr := stderr e in
  match getcwd e with
  | Raise x => (Raise x, s, e)
  | Ok old_cwd =>
      match job_context_enter workdir e with
      | Raise x => (Raise x, s, e)
      | Ok e1 =>
          job_context_finally old_cwd old_stdout old_stderr
            (job_context_try workdir stdout_filename body s e1)
      end
  end.

(** A bound method of the application: its [__name__], its [repr], and
    what calling it does to the Job and to the process environment. *)
Record Callable := mkCallable {
  func_name : string;
  func_repr : string;
  call : Block Job
}.

(** Modelled from the spec: the class [ApplicationDefinition] is not among
    the sources; an instance exposes the four callables [preprocess],
    [postprocess], [handle_error] and [handle_timeout], bound to a Job.
    [app.job] is the very Job object the worker holds, so the Job is
    threaded through the calls instead of being stored here, and
    [app_cls(job)] is the cached entry itself. *)
Record ApplicationDefinition := mkApp {
  preprocess : Callable;
  postprocess : Callable;
  handle_error : Callable;
  handle_timeout : Callable
}.

(** The dictionary literal of [transition]. *)
Definition transition_table (app : ApplicationDefinition) : gmap string Callable :=
  list_to_map [ ("STAGED_IN", preprocess app);
                ("RUN_DONE", postprocess app);
                ("RUN_ERROR", handle_error app);
                ("RUN_TIMEOUT", handle_timeout app) ].

Definition newline : string := String (Ascii.ascii_of_nat 10) EmptyString.

Definition running_msg (f : Callable) (job : Job) : string :=
  "Running " +:+ func_name f +:+ " for Job " +:+ pretty (job_id job).

Definition failure_data (f : Callable) (exc : PyExc) : gmap string string :=
  <["exception" := exc_text exc]>
    (<["message" := "An exception occured in " +:+ func_repr f]> ∅).

(** [transition(app)] *)
Definition transition (app : ApplicationDefinition) : Block Job :=
  fun job e =>
    match transition_table app !! job_state job with
    | None => (Raise (KeyError (job_state job)), job, e)
    | Some transition_func =>
        let e1 := stdout_write ("#BALSAM " +:+ running_msg transition_func job
                                +:+ newline) e in
        match call transition_func job e1 with
        | (Ok u, job', e2) => (Ok u, job', e2)
        | (Raise exc, job', e2) =>
            if is_Exception exc then
              (Ok tt,
               set_state_data (Some (failure_data transition_func exc))
                              (set_state JobState_failed job'),
               e2)
            else (Raise exc, job', e2)
        end
    end.

(** The dictionary put on the status queue. *)
Record StatusRecord := mkStatus {
  status_id : Z;
  status_state : string;
  status_state_timestamp : nat;
  status_state_data : gmap string string
}.

(** [job.state_data if job.state_data else {}] *)
Definition state_data_or_empty (d : option (gmap string string))
  : gmap string string :=
  match d with
  | Some m => if bool_decide (m = ∅) then ∅ else m
  | None => ∅
  end.

(** The worker process: its flag, its environment, the status queue it
    feeds, and a logical clock read by [datetime.utcnow()]. *)
Record Worker := mkWorker {
  EXIT_FLAG : bool;
  env : ProcEnv;
  status_queue : list StatusRecord;
  clock : nat
}.

(** The [else:] branch of the loop body of [run_worker], for a dequeued
    [job]: the result, the Job object afterwards, the worker afterwards. *)
Definition process_job (app_cache : gmap Z ApplicationDefinition)
           (data_path : AbsPath) (job : Job) (w : Worker)
  : Res unit * Job * Worker :=
  match app_cache !! job_app_id job with
  | None => (Raise (KeyError (pretty (job_app_id job))), job, w)
  | Some app =>
      let workdir := joinpath data_path (job_workdir job) in
      match job_context workdir "balsam.log" (transition app) job (env w) with
      | (Raise x, job1, e1) =>
          (Raise x, job1, mkWorker (EXIT_FLAG w) e1 (status_queue w) (clock w))
      | (Ok _, job1, e1) =>
          let job2 := set_state_timestamp (Some (clock w)) job1 in
          let record :=
            mkStatus (job_id job2) (job_state job2) (S (clock w))
                     (state_data_or_empty (job_state_data job2)) in
          (Ok tt, job2,
           mkWorker (EXIT_FLAG w) e1 (status_queue w ++ [record])
                    (S (S (clock w))))
      end
  end.

(** What the worker meets, in order: a signal (SIGINT or SIGTERM), a
    [get(timeout=1)] that times out, or one that returns a Job. *)
Inductive WorkerEvent :=
| SignalReceived
| QueueEmpty
| Dequeued (job : Job).

Inductive WorkerOutcome :=
| StillServing (w : Worker)             (* in the loop, events used up *)
| WorkerExit (w : Worker)               (* left the loop on EXIT_FLAG *)
| WorkerCrashed (e : PyExc) (w : Worker). (* an exception left run_worker *)

Definition sig_handler (w : Worker) : Worker :=
  mkWorker true (env w) (status_queue w) (clock w).

(** [run_worker] on a finite run of events. *)
Fixpoint run_worker (app_cache : gmap Z ApplicationDefinition)
         (data_path : AbsPath) (events : list WorkerEvent) (w : Worker)
  : WorkerOutcome :=
  match events with
  | [] => StillServing w
  | SignalReceived :: rest => run_worker app_cache data_path rest (sig_handler w)
  | QueueEmpty :: rest =>
      if EXIT_FLAG w then WorkerExit w
      else run_worker app_cache data_path rest w
  | Dequeued job :: rest =>
      if EXIT_FLAG w then WorkerExit w
      else
        match process_job app_cache data_path job w with
        | (Ok _, _, w1) => run_worker app_cache data_path rest w1
        | (Raise x, _, w1) => WorkerCrashed x w1
        end
  end.

(** The four triggering states. *)
Definition triggering_states : list string :=
  ["STAGED_IN"; "RUN_DONE"; "RUN_ERROR"; "RUN_TIMEOUT"].

Definition is_triggering (s : string) : bool :=
  bool_decide (s ∈ triggering_states).

(** The environment in which the body of [with job_context(...)] starts,
    when the scope can be set up at all. *)
Definition scope_env (workdir : AbsPath) (stdout_filename : string)
           (e : ProcEnv) : Res ProcEnv :=
  match getcwd e with
  | Raise x => Raise x
  | Ok _ =>
      match job_context_enter workdir e with
      | Raise x => Raise x
      | Ok e1 =>
          match open_append (joinpath workdir (path_of_name stdout_filename)) e1 with
          | Raise x => Raise x
          | Ok (fp, e2) => Ok (set_stderr fp (set_stdout fp e2))
          end
      end
  end.

(** A block that leaves directory [d] in place. *)
Definition keeps_dir {S : Type} (d : AbsPath) (body : Block S) : Prop :=
  forall s e, is_dir e d = true -> is_dir (snd (body s e)) d = true.

Definition callables (app : ApplicationDefinition) : list Callable :=
  [preprocess app; postprocess app; handle_error app; handle_timeout app].

End Processing.


(* ===================================================================== *)
(** ** Concrete inputs                                                    *)
(* ===================================================================== *)

Module Samples.
Import JobSource Session Processing.

Definition sample_job (id : Z) (state : string) : Job :=
  mkJob id 1 (mkPath false ["data"; "job" +:+ pretty id]) state None None.

Definition sample_source : FixedDepthJobSource :=
  mkFixedDepth 1 3 ∅ {[ "PREPROCESSED"; "RESTART_READY" ]} false
               (Some 60) None None None 0%Q.

Definition sample_reply : AcquireRequest -> Res (list Job) :=
  fun req =>
    Ok (take (Z.to_nat (max_num_jobs req))
             [sample_job 11 "PREPROCESSED"; sample_job 12 "PREPROCESSED";
              sample_job 13 "RESTART_READY"]).

Definition sample_loop_state : LoopState :=
  mkLoopState 7 [sample_job 10 "PREPROCESSED"] [].

(** A service that knows no batch job and grants session 7. *)
Definition sample_service : Service :=
  mkService (fun _ _ => Raise DoesNotExist) (fun _ _ => Ok 7) (fun _ => Ok tt).

Definition empty_world : World := mkWorld [] [] [].

Definition sample_machine : Machine :=
  mkMachine (mkSessionThread 7 None 0)
            (mkWorld [BatchJobGet 1 42; SessionCreate 1 None; SessionTick 7]
                     [Warning (lookup_warning 42)]
                     [Waiting]).

(** An application whose [preprocess] raises [ValueError] and whose other
    methods advance the Job. *)
Definition failing_preprocess : Callable :=
  mkCallable "preprocess" "<bound method App.preprocess>"
             (fun j e => (Raise (mkExc FromException "ValueError" "bad input"),
                          j, e)).

Definition advance_to (state : string) (name : string) : Callable :=
  mkCallable name ("<bound method App." +:+ name +:+ ">")
             (fun j e => (Ok tt, set_state state j, e)).

Definition sample_app : ApplicationDefinition :=
  mkApp failing_preprocess
        (advance_to "POSTPROCESSED" "postprocess")
        (advance_to "RESTART_READY" "handle_error")
        (advance_to "RESTART_READY" "handle_timeout").

Definition sample_cache : gmap Z ApplicationDefinition := {[ 1 := sample_app ]}.

Definition sample_data_path : AbsPath := ["site"; "data"].

Definition sample_env : ProcEnv :=
  mkEnv ["site"] (StdStream "stdout") (StdStream "stderr")
        [[]; ["site"]; ["site"; "data"]] [] [].

Definition sample_worker : Worker := mkWorker false sample_env [] 0.

(** The environment inside the scope of Job 10: its directory has been
    created and entered, both streams go to its log file. *)
Definition sample_scope_env : ProcEnv :=
  mkEnv ["site"; "data"; "data"; "job10"]
        (FileStream ["site"; "data"; "data"; "job10"; "balsam.log"])
        (FileStream ["site"; "data"; "data"; "job10"; "balsam.log"])
        [[]; ["site"]; ["site"; "data"]; ["site"; "data"; "data"];
         ["site"; "data"; "data"; "job10"]]
        [["site"; "data"; "data"; "job10"; "balsam.log"]]
        [].

(** An application whose [postprocess] calls [sys.exit(1)]. *)
Definition exiting_postprocess : Callable :=
  mkCallable "postprocess" "<bound method App.postprocess>"
             (fun j e => (Raise (mkExc FromBaseExceptionOnly "SystemExit" "1"),
                          j, e)).

Definition exiting_app : ApplicationDefinition :=
  mkApp (advance_to "PREPROCESSED" "preprocess")
        exiting_postprocess
        (advance_to "RESTART_READY" "handle_error")
        (advance_to "RESTART_READY" "handle_timeout").

Definition exiting_cache : gmap Z ApplicationDefinition := {[ 1 := exiting_app ]}.


(** The method [f] with [os.rmdir(p)] put in front of its body. *)
Definition rmdir_then (p : AbsPath) (f : Callable) : Callable :=
  mkCallable (func_name f) (func_repr f)
             (fun j e =>
                call f j (set_dirs (filter (fun d => d <> p) (dirs e)) e)).

(** An application that removes the directory [/run] before its
    [preprocess] raises [ValueError] and before its [postprocess] calls
    [sys.exit(1)]. *)
Definition cleaning_app : ApplicationDefinition :=
  mkApp (rmdir_then ["run"] failing_preprocess)
        (rmdir_then ["run"] exiting_postprocess)
        (advance_to "RESTART_READY" "handle_error")
        (advance_to "RESTART_READY" "handle_timeout").

Definition cleaning_cache : gmap Z ApplicationDefinition := {[ 1 := cleaning_app ]}.

(** A worker started in the directory [/run], outside the site. *)
Definition launch_env : ProcEnv :=
  mkEnv ["run"] (StdStream "stdout") (StdStream "stderr")
        [[]; ["run"]; ["site"]; ["site"; "data"]] [] [].

Definition launch_worker : Worker := mkWorker false launch_env [] 0.

End Samples.

(* ===================================================================== *)
(** ** The rest of the job sources: [__init__] and [_run]                 *)
(* ===================================================================== *)

Module SourceRun.
Import JobSource Session.

(** The default of [states] in [FixedDepthJobSource.__init__]. *)
Definition default_states : gset string := {[ "PREPROCESSED"; "RESTART_READY" ]}.

(** [FixedDepthJobSource.__init__]: the arguments are stored,
    [filter_tags=None] becomes the empty dictionary, [start_time] is the
    reading [now] of [time.time()]. *)
Definition FixedDepthJobSource_init
           (site_id prefetch_depth : Z)
           (filter_tags : option (gmap string string)) (states : gset string)
           (serial_only : bool) (max_wall_time_min max_nodes_per_job : option Z)
           (max_aggregate_nodes : option Q) (scheduler_id : option Z) (now : Q)
  : FixedDepthJobSource :=
  mkFixedDepth site_id prefetch_depth (default ∅ filter_tags) states
               serial_only max_wall_time_min max_nodes_per_job
               max_aggregate_nodes scheduler_id now.


(** The process inside the loop of [_run]: the local [EXIT_FLAG], the
    queue, and the session lease with the process-wide state. *)
Record RunState := mkRunState {
  run_flag : bool;
  run_queue : list Job;
  run_machine : Machine
}.

Inductive RunOutcome :=
| RunLooping (st : RunState)                       (* events used up *)
| RunReturned (queue : list Job) (m : Machine)     (* graceful exit *)
| RunRaised (e : PyExc) (queue : list Job) (w : World).






Definition outcome_queue (o : RunOutcome) : list Job :=
  match o with
  | RunLooping st => run_queue st
  | RunReturned q _ => q
  | RunRaised _ q _ => q
  end.


Definition has_returned (o : RunOutcome) : bool :=
  match o with RunReturned _ _ => true | _ => false end.

(** A reply that hands out no more Jobs than were asked for. *)
Definition within_request (reply : AcquireRequest -> Res (list Job)) : Prop :=
  forall req jobs,
    0 <= max_num_jobs req -> reply req = Ok jobs ->
    Z.of_nat (length jobs) <= max_num_jobs req.

Definition event_within_request (ev : LoopEvent) : Prop :=
  match ev with
  | Cycle _ reply => within_request reply
  | _ => True
  end.

(** The state the loop of [_run] (as [run_loop]) is left in. *)
Definition loop_outcome_state (o : LoopOutcome) : LoopState :=
  match o with
  | StillLooping st => st
  | LoopLeft st => st
  | LoopRaised _ st => st
  end.

(** An acquisition request as [self] builds it, for some clock reading
    and a count between 1 and the prefetch depth. *)
Definition request_of (self : FixedDepthJobSource) (c : ApiCall) : Prop :=
  exists sid now n,
    c = SessionAcquire sid (_get_acquire_parameters self now n)
    /\ 1 <= n <= fd_prefetch_depth self.

End SourceRun.

(* ===================================================================== *)
(** ** More of the processing worker, and [ProcessingService]             *)
(* ===================================================================== *)

Module Service.
Import JobSource Processing SourceRun.

(** The worker a run of [run_worker] ends with. *)
Definition outcome_worker (o : WorkerOutcome) : Worker :=
  match o with
  | StillServing w => w
  | WorkerExit w => w
  | WorkerCrashed _ w => w
  end.

Definition is_dequeued (ev : WorkerEvent) : bool :=
  match ev with Dequeued _ => true | _ => false end.

(** The [states] argument [ProcessingService.__init__] gives its source. *)
Definition processing_states : gset string :=
  {[ "STAGED_IN"; "RUN_DONE"; "RUN_ERROR"; "RUN_TIMEOUT" ]}.

(** A row of [client.App.objects.filter(site_id=...)]. *)
Record AppRow := mkAppRow {
  app_row_id : Z;
  app_row_class_path : string
}.

(** The dictionary comprehension of [__init__]: the rows in order, a later
    row replacing an earlier one with the same id; an exception of
    [load_app_class] leaves it. *)
Fixpoint build_app_cache (load_app_class : string -> Res ApplicationDefinition)
         (apps : list AppRow) (acc : gmap Z ApplicationDefinition)
  : Res (gmap Z ApplicationDefinition) :=
  match apps with
  | [] => Ok acc
  | a :: rest =>
      match load_app_class (app_row_class_path a) with
      | Raise e => Raise e
      | Ok cls => build_app_cache load_app_class rest (<[app_row_id a := cls]> acc)
      end
  end.

(** The attributes of a [ProcessingService]; [svc_num_workers] is
    [len(self.workers)], each worker a process running [run_worker] on the
    source's queue, the updater's queue, [svc_app_cache] and
    [svc_data_path]. *)
Record ProcessingService := mkProcessingService {
  svc_site_id : Z;
  svc_job_source : FixedDepthJobSource;
  svc_app_cache : gmap Z ApplicationDefinition;
  svc_data_path : AbsPath;
  svc_num_workers : nat;
  _started : bool
}.

(** [ProcessingService.__init__]; [apps] is what the query for the site's
    apps returns, [now] the clock reading the job source stores. *)
Definition ProcessingService_init (site_id prefetch_depth : Z)
           (apps : list AppRow)
           (load_app_class : string -> Res ApplicationDefinition)
           (data_path : AbsPath)
           (filter_tags : option (gmap string string)) (num_workers : Z)
           (now : Q) : Res ProcessingService :=
  let job_source :=
    FixedDepthJobSource_init site_id prefetch_depth filter_tags
                             processing_states false None None None None now in
  match build_app_cache load_app_class apps ∅ with
  | Raise e => Raise e
  | Ok app_cache =>
      Ok (mkProcessingService site_id job_source app_cache data_path
                              (Z.to_nat num_workers) false)
  end.

(** The processes the service owns and what it asks of them. *)
Inductive Component :=
| StatusUpdater
| JobSourceProcess
| WorkerProcess (i : nat).

Inductive Operation := Start | Terminate | Join.

#[global] Instance Component_eq_dec : EqDecision Component.
Proof. solve_decision. Defined.
#[global] Instance Operation_eq_dec : EqDecision Operation.
Proof. solve_decision. Defined.

Definition Trace : Type := list (Component * Operation).

Definition each_worker (op : Operation) (s : ProcessingService) : Trace :=
  map (fun i => (WorkerProcess i, op)) (seq 0 (svc_num_workers s)).

Definition set_started (b : bool) (s : ProcessingService) : ProcessingService :=
  mkProcessingService (svc_site_id s) (svc_job_source s) (svc_app_cache s)
                      (svc_data_path s) (svc_num_workers s) b.

(** [ProcessingService.start] *)
Definition start (s : ProcessingService) (t : Trace) : ProcessingService * Trace :=
  if _started s then (s, t)
  else (set_started true s,
        t ++ [(StatusUpdater, Start); (JobSourceProcess, Start)]
          ++ each_worker Start s).

(** [ProcessingService.terminate] *)
Definition terminate (s : ProcessingService) (t : Trace) : ProcessingService * Trace :=
  (s, t ++ [(JobSourceProcess, Terminate)] ++ each_worker Terminate s).

(** [ProcessingService.join] *)
Definition join (s : ProcessingService) (t : Trace) : ProcessingService * Trace :=
  (s, t ++ each_worker Join s
        ++ [(StatusUpdater, Terminate); (JobSourceProcess, Join);
            (StatusUpdater, Join)]).

(** A service started and terminated once, then joined: what has been
    asked of its processes after [terminate], and after [join]. *)
Definition trace_until_terminate (s : ProcessingService) : Trace :=
  snd (terminate (fst (start s [])) (snd (start s []))).

Definition trace_of_life (s : ProcessingService) : Trace :=
  snd (join (fst (terminate (fst (start s [])) (snd (start s []))))
            (trace_until_terminate s)).

(** [a] occurs in the trace and [b] occurs later. *)
Definition precedes (a b : Component * Operation) (t : Trace) : Prop :=
  exists t1 t2 t3, t = t1 ++ a :: t2 ++ b :: t3.

End Service.

(* ===================================================================== *)
(** ** Batch jobs: [BatchJobBase.validate], [partitions_to_cli_args]      *)
(* ===================================================================== *)

Module BatchJob.

(** The two fields of an allowed queue that [validate] reads. *)
Record AllowedQueue := mkAllowedQueue {
  max_nodes : Z;
  max_walltime : Z
}.

(** A partition: [job_mode] as the f-string prints it, [num_nodes], and
    [filter_tags] in the order [items()] yields them. *)
Record BatchJobPartition := mkPartition {
  part_job_mode : string;
  part_num_nodes : Z;
  part_filter_tags : list (string * string)
}.

Record BatchJobBase := mkBatchJob {
  queue : string;
  project : string;
  num_nodes : Z;
  wall_time_min : Z;
  partitions : option (list BatchJobPartition);
  optional_params : gmap string string
}.

(** The [raise ValueError(...)] statements of [validate], in source order.
    The message texts embed Python's [repr] of lists and sets and are not
    modelled; [Extraneous] carries the set the message shows. *)
Inductive ValidationError :=
| UnknownQueue
| ExceedsMaxNodes
| BelowOneNode
| ExceedsWalltime
| UnknownProject
| PartitionSum
| Extraneous (extraneous : gset string).

(** Truth value of [self.partitions]: neither [None] nor empty. *)
Definition partitions_given (self : BatchJobBase) : list BatchJobPartition :=
  default [] (partitions self).

Definition sum_nodes (parts : list BatchJobPartition) : Z :=
  fold_right Z.add 0 (map part_num_nodes parts).

(** [BatchJobBase.validate]: [None] when it returns, the error otherwise. *)
Definition validate (self : BatchJobBase)
           (allowed_queues : gmap string AllowedQueue)
           (allowed_projects : list string)
           (optional_batch_job_params : gmap string string)
  : option ValidationError :=
  match allowed_queues !! queue self with
  | None => Some UnknownQueue
  | Some q =>
      if max_nodes q <? num_nodes self then Some ExceedsMaxNodes
      else if num_nodes self <? 1 then Some BelowOneNode
      else if max_walltime q <? wall_time_min self then Some ExceedsWalltime
      else if negb (bool_decide (project self ∈ allowed_projects))
      then Some UnknownProject
      else if match partitions_given self with
              | [] => false
              | parts => negb (sum_nodes parts =? num_nodes self)
              end
      then Some PartitionSum
      else
        let extraneous :=
          dom (optional_params self) ∖ dom optional_batch_job_params in
        if bool_decide (extraneous = ∅) then None
        else Some (Extraneous extraneous)
  end.

(** [":".join(f"{k}={v}" for k, v in part.filter_tags.items())] *)
Definition tags_text (tags : list (string * string)) : string :=
  String.concat ":" (map (fun kv => fst kv +:+ "=" +:+ snd kv) tags).

(** What one turn of the loop of [partitions_to_cli_args] appends. *)
Definition part_args (part : BatchJobPartition) : string :=
  let filter_tags := tags_text (part_filter_tags part) in
  let args := " --part " +:+ part_job_mode part +:+ ":"
              +:+ pretty (part_num_nodes part) in
  if bool_decide (filter_tags = "") then args
  else args +:+ ":" +:+ filter_tags.

(** [BatchJobBase.partitions_to_cli_args] *)
Definition partitions_to_cli_args (self : BatchJobBase) : string :=
  match partitions_given self with
  | [] => ""
  | parts => fold_left (fun args part => args +:+ part_args part) parts ""
  end.

End BatchJob.

Module MoreSamples.
Import JobSource Session Processing Service.

(** An environment in which [balsam.log] of the directory [/site/data] is
    a directory, and one in which [/site/data] is a file. *)
Definition env_log_is_dir : ProcEnv :=
  mkEnv ["site"] (StdStream "stdout") (StdStream "stderr")
        [[]; ["site"]; ["site"; "data"]; ["site"; "data"; "balsam.log"]] [] [].

Definition env_workdir_is_file : ProcEnv :=
  mkEnv ["site"] (StdStream "stdout") (StdStream "stderr")
        [[]; ["site"]] [["site"; "data"]] [].

(** A block that removes every directory and then raises. *)
Definition wiping_block : Block nat :=
  fun n e => (Raise (mkExc FromException "ValueError" "late"), S n,
              set_dirs [] e).

(** Two apps of a site, the second registered twice. *)
Definition sample_rows : list AppRow :=
  [mkAppRow 1 "demo.Hello"; mkAppRow 2 "demo.Old"; mkAppRow 2 "demo.New"].

Definition sample_loader (class_path : string) : Res ApplicationDefinition :=
  if bool_decide (class_path = "demo.Hello") then Ok Samples.sample_app
  else Ok Samples.exiting_app.

(** A service with three workers, not yet started. *)
Definition sample_processing_service : ProcessingService :=
  mkProcessingService 1 Samples.sample_source Samples.sample_cache
                      Samples.sample_data_path 3 false.

End MoreSamples.

(* ===================================================================== *)
(** * Part II: properties                                                 *)
(* ===================================================================== *)

(** ** Node ranges *)

Section NodeRangesFacts.
Import NodeRanges.

(** The accumulator is only ever extended. *)
Lemma node_ranges_loop_acc fuel : forall n a s r,
  node_ranges_loop fuel n a s r
  = option_map (app r) (node_ranges_loop fuel n a s []).
Proof.
  induction fuel as [|fuel IH]; intros n a s r; simpl.
  - destruct (n =? 0); simpl; [by rewrite app_nil_r|done].
  - destruct (n =? 0); simpl; [by rewrite app_nil_r|].
    destruct (1 <? n); rewrite IH; symmetry; rewrite IH;
      destruct (node_ranges_loop fuel _ _ _ []); simpl; try done;
      by rewrite <- app_assoc.
Qed.

(** One turn of the loop from an empty accumulator. *)
Lemma node_ranges_loop_unfold fuel n a s :
  1 <= n ->
  node_ranges_loop (S fuel) n a s []
  = option_map (cons (n / 2 + 1, n, if 1 <? n then a else s))
               (node_ranges_loop fuel (n / 2) (a * 2) s []).
Proof.
  intros Hn. simpl.
  destruct (n =? 0) eqn:E; [lia|].
  assert (Hmin : Z.min n (n / 2 + 1) = n / 2 + 1).
  { apply Z.min_r. assert (n / 2 < n \/ n = 1) as [H| ->] by
      (destruct (Z.eq_dec n 1); [by right|left; apply Z.div_lt; lia]);
      [lia|reflexivity]. }
  rewrite Hmin. replace (n / 2 + 1 - 1) with (n / 2) by lia.
  destruct (1 <? n); by rewrite node_ranges_loop_acc.
Qed.

Lemma remaining_succ n i : 0 <= n -> remaining n (S i) = remaining (n / 2) i.
Proof.
  intros Hn. unfold remaining.
  rewrite Nat2Z.inj_succ, Z.pow_succ_r by lia.
  rewrite Z.div_div by lia. reflexivity.
Qed.

Lemma bucket_at_succ n a s i :
  0 <= n -> bucket_at n a s (S i) = bucket_at (n / 2) (a * 2) s i.
Proof.
  intros Hn. unfold bucket_at. rewrite remaining_succ by done.
  rewrite Nat2Z.inj_succ, Z.pow_succ_r by lia.
  cbv zeta. f_equal. destruct (1 <? _); [ring|reflexivity].
Qed.

Lemma num_buckets_half n : 2 <= n -> num_buckets n = S (num_buckets (n / 2)).
Proof.
  intros Hn. unfold num_buckets. f_equal.
  assert (Hlog : Z.log2 n = Z.succ (Z.log2 (n / 2))).
  { pose proof (Z.div_mod n 2 ltac:(lia)) as Hdm.
    pose proof (Z.mod_pos_bound n 2 ltac:(lia)) as Hb.
    assert (0 < n / 2) by (apply Z.div_str_pos; lia).
    destruct (Z.eq_dec (n mod 2) 0) as [E|E].
    - rewrite Hdm at 1. rewrite E, Z.add_0_r. apply Z.log2_double. lia.
    - rewrite Hdm at 1. replace (n mod 2) with 1 by lia.
      apply Z.log2_succ_double. lia. }
  rewrite Hlog. rewrite Z2Nat.inj_succ by apply Z.log2_nonneg. reflexivity.
Qed.

(** The closed form obeys the loop's recurrence. *)
Lemma buckets_one a s : buckets 1 a s = [(1, 1, s)].
Proof. reflexivity. Qed.

Lemma buckets_step n a s :
  2 <= n -> buckets n a s = (n / 2 + 1, n, a) :: buckets (n / 2) (a * 2) s.
Proof.
  intros Hn. unfold buckets. rewrite num_buckets_half by done.
  cbn [seq map]. f_equal.
  - unfold bucket_at, remaining. simpl. rewrite Z.div_1_r.
    destruct (1 <? n) eqn:E; [|lia]. repeat f_equal. lia.
  - rewrite <- seq_shift, map_map. apply map_ext. intros i.
    apply bucket_at_succ. lia.
Qed.

(** Enough fuel: the loop returns, and returns the closed form. *)
Lemma node_ranges_loop_closed fuel : forall n a s,
  1 <= n -> (Z.to_nat n <= fuel)%nat ->
  node_ranges_loop fuel n a s [] = Some (buckets n a s).
Proof.
  induction fuel as [|fuel IH]; intros n a s Hn Hf; [lia|].
  rewrite node_ranges_loop_unfold by done.
  destruct (Z.eq_dec n 1) as [->|Hne].
  - change (1 / 2) with 0. destruct fuel; reflexivity.
  - assert (1 <= n / 2) by (apply Z.div_le_lower_bound; lia).
    assert (n / 2 < n) by (apply Z.div_lt; lia).
    rewrite IH by lia. simpl.
    rewrite (buckets_step n) by lia.
    destruct (1 <? n) eqn:E; [reflexivity|lia].
Qed.

Lemma get_node_ranges_fuel_enough fuel n a s :
  1 <= n -> (Z.to_nat n <= fuel)%nat ->
  get_node_ranges_fuel fuel n a s = get_node_ranges n a s.
Proof.
  intros Hn Hf. unfold get_node_ranges, get_node_ranges_fuel.
  rewrite !node_ranges_loop_closed by lia. reflexivity.
Qed.

(** A negative count never reaches zero: the loop does not return. *)
Lemma node_ranges_loop_negative fuel : forall n a s r,
  n < 0 -> node_ranges_loop fuel n a s r = None.
Proof.
  induction fuel as [|fuel IH]; intros n a s r Hn; simpl.
  - destruct (n =? 0) eqn:E; [lia|done].
  - destruct (n =? 0) eqn:E; [lia|].
    assert (n / 2 < 0) by (apply Z.div_lt_upper_bound; lia).
    apply IH. lia.
Qed.

Lemma remaining_last n : 1 <= n -> remaining n (Z.to_nat (Z.log2 n)) = 1.
Proof.
  intros Hn. unfold remaining.
  rewrite Z2Nat.id by apply Z.log2_nonneg.
  destruct (Z.log2_spec n ltac:(lia)) as [Hlo Hhi].
  rewrite Z.pow_succ_r in Hhi by apply Z.log2_nonneg.
  assert (0 < 2 ^ Z.log2 n) by (apply Z.pow_pos_nonneg; [lia|apply Z.log2_nonneg]).
  symmetry. apply (Z.div_unique n _ 1 (n - 2 ^ Z.log2 n)); lia.
Qed.

Lemma remaining_before_last n i :
  1 <= n -> (i < Z.to_nat (Z.log2 n))%nat -> 1 < remaining n i.
Proof.
  intros Hn Hi. unfold remaining.
  destruct (Z.log2_spec n ltac:(lia)) as [Hlo _].
  pose proof (Z.log2_nonneg n) as Hl.
  assert (Hpos : 0 < 2 ^ Z.of_nat i) by (apply Z.pow_pos_nonneg; lia).
  assert (Hle : 2 ^ Z.succ (Z.of_nat i) <= 2 ^ Z.log2 n)
    by (apply Z.pow_le_mono_r; lia).
  rewrite Z.pow_succ_r in Hle by lia.
  assert (2 <= n / 2 ^ Z.of_nat i); [|lia].
  apply Z.div_le_lower_bound; lia.
Qed.

(** The closed form covers every node count of [1..n] exactly once. *)
Lemma buckets_partition m : forall n a s k,
  1 <= n -> (Z.to_nat n <= m)%nat ->
  cover_count (buckets n a s) k
  = if (1 <=? k) && (k <=? n) then 1%nat else 0%nat.
Proof.
  induction m as [|m IH]; intros n a s k Hn Hm; [lia|].
  destruct (Z.eq_dec n 1) as [->|Hne].
  - rewrite buckets_one. unfold cover_count, covers, bucket_lower, bucket_upper.
    rewrite filter_cons, filter_nil. simpl.
    destruct (1 <=? k) eqn:E1, (k <=? 1) eqn:E2; reflexivity.
  - assert (1 <= n / 2) by (apply Z.div_le_lower_bound; lia).
    assert (n / 2 < n) by (apply Z.div_lt; lia).
    rewrite buckets_step by lia. unfold cover_count in *.
    rewrite filter_cons.
    specialize (IH (n / 2) (a * 2) s k ltac:(lia) ltac:(lia)).
    unfold covers at 1, bucket_lower, bucket_upper. simpl fst. simpl snd.
    case_decide as Hc; simpl; rewrite IH;
      destruct (1 <=? k) eqn:E1, (k <=? n) eqn:E2, (k <=? n / 2) eqn:E3,
               (n / 2 + 1 <=? k) eqn:E4; simpl in *; try reflexivity;
      try congruence; lia.
Qed.

End NodeRangesFacts.

Section NodeRangesClaims.
Import NodeRanges.

(** C2. [get_node_ranges 8 2 1] returns the buckets (5..8), (3..4), (2..2),
    (1..1); every node count of 1..8 lies in exactly one of them and no
    other count lies in any; the multipliers are 2, 4, 8 from the top
    bucket downward, each the double of the one before, and the last,
    single-node bucket carries [single_node_prefetch_factor] whatever the
    two factors are. *)
Theorem node_ranges_8_2_1 :
  get_node_ranges 8 2 1 = Some [(5, 8, 2); (3, 4, 4); (2, 2, 8); (1, 1, 1)]
  /\ (forall k, cover_count [(5, 8, 2); (3, 4, 4); (2, 2, 8); (1, 1, 1)] k
                = if (1 <=? k) && (k <=? 8) then 1%nat else 0%nat)
  /\ (forall pf single,
         get_node_ranges 8 pf single
         = Some [(5, 8, pf); (3, 4, pf * 2); (2, 2, pf * 2 * 2); (1, 1, single)]).
Proof.
  split; [reflexivity|]. split; [|reflexivity].
  intros k. exact (buckets_partition 8 8 2 1 k ltac:(lia) ltac:(lia)).
Qed.

(** C3 as worded fails: from 3 nodes the first bucket is (2..3), while
    ceil(3/2)+1 = 3. *)
Lemma node_ranges_ceil_fails : ~ ranges_as_worded 3 2 1.
Proof.
  intros H. specialize (H _ eq_refl).
  apply Forall_cons_1 in H as [H _].
  unfold lower_from_ceil, bucket_upper, bucket_lower, ceil_half in H.
  simpl in H. specialize (H ltac:(lia)). discriminate H.
Qed.

(** C3, amended. For [num_nodes >= 1] the function returns; the bucket of
    halving step [i], whose remaining node count [r = num_nodes / 2^i] is
    above 1, covers (floor(r/2)+1 .. r) with multiplier
    [prefetch_factor * 2^i]; the last bucket covers exactly node count 1
    with [single_node_prefetch_factor]. *)
Theorem node_ranges_halving (num_nodes prefetch_factor single : Z) :
  1 <= num_nodes ->
  get_node_ranges num_nodes prefetch_factor single
  = Some (map (fun i => (remaining num_nodes i / 2 + 1,
                         remaining num_nodes i,
                         prefetch_factor * 2 ^ Z.of_nat i))
              (seq 0 (Z.to_nat (Z.log2 num_nodes)))
          ++ [(1, 1, single)])
  /\ Forall (fun i => 1 < remaining num_nodes i)
            (seq 0 (Z.to_nat (Z.log2 num_nodes))).
Proof.
  intros Hn.
  assert (Hall : Forall (fun i => 1 < remaining num_nodes i)
                        (seq 0 (Z.to_nat (Z.log2 num_nodes)))).
  { apply Forall_forall. intros i Hi. apply elem_of_seq in Hi.
    apply remaining_before_last; lia. }
  split; [|exact Hall].
  unfold get_node_ranges, get_node_ranges_fuel.
  rewrite node_ranges_loop_closed by lia. f_equal.
  unfold buckets, num_buckets.
  replace (S (Z.to_nat (Z.log2 num_nodes)))
    with (Z.to_nat (Z.log2 num_nodes) + 1)%nat by lia.
  rewrite seq_app, map_app. simpl. f_equal.
  - apply map_ext_in. intros i Hi. apply in_seq in Hi.
    pose proof (remaining_before_last num_nodes i Hn ltac:(lia)) as Hr.
    unfold bucket_at. simpl.
    destruct (1 <? remaining num_nodes i) eqn:E; [reflexivity|lia].
  - unfold bucket_at. rewrite remaining_last by done. reflexivity.
Qed.

Lemma node_ranges_halving_witness :
  1 <= 5
  /\ get_node_ranges 5 2 1
     = Some (map (fun i => (remaining 5 i / 2 + 1, remaining 5 i,
                            2 * 2 ^ Z.of_nat i))
                 (seq 0 (Z.to_nat (Z.log2 5)))
             ++ [(1, 1, 1)])
  /\ Forall (fun i => 1 < remaining 5 i) (seq 0 (Z.to_nat (Z.log2 5))).
Proof.
  split; [lia|]. apply (node_ranges_halving 5 2 1). lia.
Defined.

End NodeRangesClaims.

(** ** Remaining wall time *)

Section WallTimeFacts.
Import JobSource.
Local Open Scope Q_scope.







End WallTimeFacts.

Section WallTimeClaims.
Import JobSource.
Local Open Scope Q_scope.



(** C5 as worded fails: 90 seconds after the start, with a ceiling of 60
    minutes, the prefetching variant passes 58.5 and the synchronous one
    [round(58.5) = 58]. *)
Lemma request_time_differs :
  synchronous_request_time (Some 60%Z) 0 90 = Some (PyInt 58)
  /\ (exists f, fixed_depth_request_time (Some 60%Z) 0 90 = Some (PyFloat f)
                /\ f == 117 # 2)
  /\ ~ same_request_time (Some 60%Z) 0 90.
Proof.
  split; [reflexivity|]. split.
  - eexists. split; [reflexivity|]. reflexivity.
  - unfold same_request_time. simpl. vm_compute. discriminate.
Qed.

(** C5, amended. A call of the synchronous [get_jobs] issues exactly one
    acquisition call, built from its arguments, and hands the service's
    answer to the caller as it is (the source keeps no queue).  Its
    remaining wall time is the prefetching variant's value for the same
    ceiling, start time and clock reading, rounded to the nearest integer
    (ties to even); it is absent exactly when the other is. *)
Theorem sync_get_jobs_one_call
        (self : SynchronousJobSource) (now : Q)
        (reply : AcquireRequest -> Res (list Job))
        (max_num : Z) (max_nodes : option Z) (max_aggregate : option Q)
        (st : SyncState) :
  exists req,
    sync_get_jobs self now reply max_num max_nodes max_aggregate st
    = (reply req,
       mkSyncState (sync_session st)
                   (sync_calls st ++ [SessionAcquire (sync_session st) req]))
    /\ max_num_jobs req = max_num
    /\ max_nodes_per_job req = max_nodes
    /\ max_aggregate_nodes req = max_aggregate
    /\ max_wall_time_min req
       = synchronous_request_time (sy_max_wall_time_min self)
                                  (sy_start_time self) now
    /\ synchronous_request_time (sy_max_wall_time_min self)
                                (sy_start_time self) now
       = option_map (fun v => PyInt (py_round (num_value v)))
                    (fixed_depth_request_time (sy_max_wall_time_min self)
                                              (sy_start_time self) now).
Proof.
  eexists. split; [reflexivity|]. repeat (split; [reflexivity|]).
  unfold synchronous_request_time, fixed_depth_request_time.
  destruct (sy_max_wall_time_min self) as [m|]; [|reflexivity].
  destruct (negb (m =? 0)%Z); reflexivity.
Qed.

End WallTimeClaims.

(** ** The prefetch loop *)

Section FetchLoopClaims.
Import JobSource.

Lemma put_all_app jobs : forall q, put_all jobs q = q ++ jobs.
Proof.
  unfold put_all, put_nowait.
  induction jobs as [|j jobs IH]; intros q; simpl.
  - by rewrite app_nil_r.
  - rewrite IH, <- app_assoc. reflexivity.
Qed.

(** A fetch cycle is one turn of the loop while the flag is down. *)
Lemma run_loop_cycle self now reply rest st :
  run_loop self (Cycle now reply :: rest) false st
  = match fetch_iteration self now reply st with
    | (Ok _, st') => run_loop self rest false st'
    | (Raise e, st') => LoopRaised e st'
    end.
Proof. reflexivity. Qed.

(** C4. In a fetch cycle the requested count is
    [max(0, prefetch_depth - qsize)].  With the queue at [prefetch_depth - k]:
    for [k <= 0] the cycle issues no call and leaves queue and call record
    as they were; for [k > 0] it issues exactly one acquisition call, for
    [k] jobs, and appends every returned Job to the queue in order
    ([put_nowait], never waiting); an exception of the call is passed on
    with the queue as it was. *)
Theorem fetch_cycle_requests_deficit
        (self : FixedDepthJobSource) (now : Q)
        (reply : AcquireRequest -> Res (list Job)) (st : LoopState) (k : Z) :
  qsize st = fd_prefetch_depth self - k ->
  fetch_count self st = Z.max 0 (fd_prefetch_depth self - qsize st)
  /\ fetch_count self st = Z.max 0 k
  /\ if k <=? 0
     then fetch_iteration self now reply st = (Ok tt, st)
     else
       let req := _get_acquire_parameters self now k in
       max_num_jobs req = k
       /\ fetch_iteration self now reply st
          = match reply req with
            | Ok jobs =>
                (Ok tt,
                 mkLoopState (loop_session st)
                             (loop_queue st ++ jobs)
                             (loop_calls st
                              ++ [SessionAcquire (loop_session st) req]))
            | Raise e =>
                (Raise e,
                 mkLoopState (loop_session st)
                             (loop_queue st)
                             (loop_calls st
                              ++ [SessionAcquire (loop_session st) req]))
            end.
Proof.
  intros Hq.
  assert (Hk : fetch_count self st = Z.max 0 k)
    by (unfold fetch_count; rewrite Hq; f_equal; lia).
  split; [reflexivity|]. split; [exact Hk|].
  unfold fetch_iteration. rewrite Hk.
  destruct (k <=? 0) eqn:E.
  - apply Z.leb_le in E. rewrite Z.max_l by lia. reflexivity.
  - apply Z.leb_gt in E. rewrite Z.max_r by lia.
    destruct (k =? 0) eqn:E0; [lia|]. simpl.
    split; [reflexivity|].
    destruct (reply _); [|reflexivity].
    by rewrite put_all_app.
Qed.

Lemma fetch_cycle_requests_deficit_witness :
  qsize Samples.sample_loop_state
  = fd_prefetch_depth Samples.sample_source - 2
  /\ fetch_count Samples.sample_source Samples.sample_loop_state
     = Z.max 0 (fd_prefetch_depth Samples.sample_source
                - qsize Samples.sample_loop_state)
  /\ fetch_count Samples.sample_source Samples.sample_loop_state = Z.max 0 2
  /\ if 2 <=? 0
     then fetch_iteration Samples.sample_source 5%Q Samples.sample_reply
                          Samples.sample_loop_state
          = (Ok tt, Samples.sample_loop_state)
     else
       let req := _get_acquire_parameters Samples.sample_source 5%Q 2 in
       max_num_jobs req = 2
       /\ fetch_iteration Samples.sample_source 5%Q Samples.sample_reply
                          Samples.sample_loop_state
          = match Samples.sample_reply req with
            | Ok jobs =>
                (Ok tt,
                 mkLoopState (loop_session Samples.sample_loop_state)
                   (loop_queue Samples.sample_loop_state ++ jobs)
                   (loop_calls Samples.sample_loop_state
                    ++ [SessionAcquire
                          (loop_session Samples.sample_loop_state) req]))
            | Raise e =>
                (Raise e,
                 mkLoopState (loop_session Samples.sample_loop_state)
                   (loop_queue Samples.sample_loop_state)
                   (loop_calls Samples.sample_loop_state
                    ++ [SessionAcquire
                          (loop_session Samples.sample_loop_state) req]))
            end.
Proof.
  split; [reflexivity|].
  apply (fetch_cycle_requests_deficit Samples.sample_source 5%Q
           Samples.sample_reply Samples.sample_loop_state 2).
  reflexivity.
Defined.

(** Three cycles of the sample source (depth 3, one Job queued): the first
    requests 2, the second, at depth, requests nothing, and after
    consumers took 2 Jobs the third requests 2 again. *)
Example sample_loop_requests :
  match run_loop Samples.sample_source
          [Cycle 5%Q Samples.sample_reply; Cycle 6%Q Samples.sample_reply;
           Consumed 2; Cycle 7%Q Samples.sample_reply]
          false Samples.sample_loop_state with
  | StillLooping st =>
      map (fun c => match c with
                    | SessionAcquire _ req => max_num_jobs req
                    | _ => 0
                    end) (loop_calls st) = [2; 2]
      /\ map job_id (loop_queue st) = [12; 11; 12]
  | _ => False
  end.
Proof. vm_compute. split; reflexivity. Qed.

End FetchLoopClaims.

(** ** The session lease *)

Section SessionFacts.
Import JobSource Session.
Local Open Scope nat_scope.

Lemma insert_last (ts : list TimerState) (a b : TimerState) :
  <[length ts := b]> (ts ++ [a]) = ts ++ [b].
Proof.
  rewrite insert_app_r_alt by lia. by rewrite Nat.sub_diag.
Qed.

(** [_schedule_next_tick] in one piece: one more Timer, waiting, is what
    [self.timer] refers to, and one tick went to the service. *)
Lemma schedule_next_tick_eq svc s w :
  _schedule_next_tick svc s w
  = (match session_tick svc (session s) with
     | Ok _ => Ok (mkSessionThread (session s) (session_batch_job_id s)
                                   (length (w_timers w)))
     | Raise e => Raise e
     end,
     mkWorld (w_calls w ++ [SessionTick (session s)]) (w_log w)
             (w_timers w ++ [Waiting])).
Proof.
  unfold _schedule_next_tick, new_timer, timer_start, set_timers. simpl.
  rewrite list_lookup_middle by done.
  rewrite insert_last. unfold _do_tick, add_call. simpl.
  destruct (session_tick svc (session s)); reflexivity.
Qed.

(** A Timer moved to a state that is neither live nor about to replace
    [self.timer]. *)
Lemma invariant_update ts self_timer t st :
  lease_invariant ts self_timer ->
  live st = false -> at_new_timer st = false ->
  lease_invariant (<[t := st]> ts) self_timer.
Proof.
  intros [I1 I2 I3] Hl Hn. split.
  - intros t0 st0 H0 Hlive.
    apply list_lookup_insert_Some in H0 as [(-> & <- & _)|[_ H0]];
      [congruence|eauto].
  - intros t0 t' st' H0 H'.
    apply list_lookup_insert_Some in H0 as [(-> & -> & _)|[_ H0]];
      [discriminate Hn|].
    apply list_lookup_insert_Some in H' as [(_ & <- & _)|[_ H']]; eauto.
  - intros t0 t' H0 H'.
    apply list_lookup_insert_Some in H0 as [(-> & -> & _)|[_ H0]];
      [discriminate Hn|].
    apply list_lookup_insert_Some in H' as [(-> & -> & _)|[_ H']];
      [discriminate Hn|eauto].
Qed.

(** The interval of a Timer runs out. *)
Lemma invariant_fire ts self_timer t :
  lease_invariant ts self_timer -> ts !! t = Some Waiting ->
  lease_invariant (<[t := Running AtNewTimer]> ts) self_timer.
Proof.
  intros [I1 I2 I3] Ht.
  assert (Hself : t = self_timer) by (eapply I1; [exact Ht|reflexivity]).
  assert (Hnone : forall t0, ts !! t0 = Some (Running AtNewTimer) -> False).
  { intros t0 H0. by specialize (I2 _ _ _ H0 Ht). }
  split.
  - intros t0 st0 H0 Hlive.
    apply list_lookup_insert_Some in H0 as [(_ & <- & _)|[_ H0]];
      [discriminate Hlive|eauto].
  - intros t0 t' st' _ H'.
    apply list_lookup_insert_Some in H' as [(_ & <- & _)|[Hne H']];
      [reflexivity|].
    destruct (live st') eqn:E; [|reflexivity].
    specialize (I1 _ _ H' E). congruence.
  - intros t0 t' H0 H'.
    apply list_lookup_insert_Some in H0 as [(<- & _ & _)|[_ H0]];
      [|by destruct (Hnone _ H0)].
    apply list_lookup_insert_Some in H' as [(<- & _ & _)|[_ H']];
      [reflexivity|by destruct (Hnone _ H')].
Qed.

(** [self.timer = threading.Timer(...)] in a timer thread. *)
Lemma invariant_new ts self_timer t :
  lease_invariant ts self_timer -> ts !! t = Some (Running AtNewTimer) ->
  lease_invariant (<[t := Running AtStart]> (ts ++ [Created])) (length ts).
Proof.
  intros [I1 I2 I3] Ht.
  assert (Hold : forall t0 st0,
             <[t := Running AtStart]> (ts ++ [Created]) !! t0 = Some st0 ->
             (t0 = t /\ st0 = Running AtStart)
             \/ (t0 <> t /\ t0 < length ts /\ ts !! t0 = Some st0)
             \/ (t0 = length ts /\ st0 = Created)).
  { intros t0 st0 H0.
    apply list_lookup_insert_Some in H0 as [(-> & <- & _)|[Hne H0]];
      [by left|].
    apply lookup_snoc_Some in H0 as [[? ?]|[? <-]]; [|by right; right].
    right; left. by repeat split. }
  split.
  - intros t0 st0 H0 Hlive.
    destruct (Hold _ _ H0) as [[_ ->]|[(_ & _ & H1)|[-> _]]];
      [discriminate Hlive| |reflexivity].
    rewrite (I2 _ _ _ Ht H1) in Hlive. discriminate Hlive.
  - intros t0 t' st' H0 _.
    destruct (Hold _ _ H0) as [[_ [=]]|[(Hne & _ & H1)|[_ [=]]]].
    destruct Hne. eauto.
  - intros t0 t' H0 _.
    destruct (Hold _ _ H0) as [[_ [=]]|[(Hne & _ & H1)|[_ [=]]]].
    destruct Hne. eauto.
Qed.

(** [self.timer.start()] on a Timer just constructed. *)
Lemma invariant_start ts self_timer :
  lease_invariant ts self_timer -> ts !! self_timer = Some Created ->
  lease_invariant (<[self_timer := Waiting]> ts) self_timer.
Proof.
  intros [I1 I2 I3] Hs.
  assert (Hnone : forall t0, ts !! t0 = Some (Running AtNewTimer) -> False).
  { intros t0 H0. by specialize (I2 _ _ _ H0 Hs). }
  split.
  - intros t0 st0 H0 Hlive.
    apply list_lookup_insert_Some in H0 as [(<- & _ & _)|[_ H0]];
      [reflexivity|eauto].
  - intros t0 t' st' H0 _.
    apply list_lookup_insert_Some in H0 as [(_ & [=] & _)|[_ H0]].
    by destruct (Hnone _ H0).
  - intros t0 t' H0 _.
    apply list_lookup_insert_Some in H0 as [(_ & [=] & _)|[_ H0]].
    by destruct (Hnone _ H0).
Qed.

Lemma invariant_step a m : machine_invariant m -> machine_invariant (step a m).
Proof.
  unfold machine_invariant. intros Inv.
  destruct a as [t| |]; simpl.
  - unfold step_timer.
    destruct (w_timers (world m) !! t) as [[| | |[| |]|]|] eqn:Ht;
      try exact Inv; simpl.
    + by apply invariant_fire.
    + by apply (invariant_new _ (timer (self m))).
    + unfold timer_start.
      destruct (w_timers (world m) !! timer (self m)) as [[| | | |]|] eqn:Hs;
        simpl; try (by apply invariant_update).
      apply invariant_update; [|done|done]. by apply invariant_start.
    + by apply invariant_update.
  - unfold timer_cancel.
    destruct (w_timers (world m) !! timer (self m)) as [[| | | |]|];
      simpl; try exact Inv; by apply invariant_update.
  - exact Inv.
Qed.

Lemma invariant_run acts : forall m,
  machine_invariant m -> machine_invariant (run acts m).
Proof.
  induction acts as [|a acts IH]; intros m Inv; [exact Inv|].
  apply IH. by apply invariant_step.
Qed.

(** A successful [__init__] among settled Timers establishes the
    invariant. *)
Lemma invariant_init svc site_id scheduler_id w m :
  Forall (fun st => settled st = true) (w_timers w) ->
  machine_of (SessionThread_init svc site_id scheduler_id w) = Some m ->
  machine_invariant m.
Proof.
  intros Hw Hm.
  assert (Hgen : forall s w1, w_timers w1 = w_timers w ->
             machine_of (_schedule_next_tick svc s w1) = Some m ->
             machine_invariant m).
  { intros s w1 Ht. rewrite schedule_next_tick_eq. simpl.
    destruct (session_tick svc (session s)); [|discriminate].
    intros [= <-]. unfold machine_invariant. simpl. rewrite Ht.
    assert (Hold : forall t st, (w_timers w ++ [Waiting]) !! t = Some st ->
               (settled st = true /\ t < length (w_timers w))
               \/ (t = length (w_timers w) /\ st = Waiting)).
    { intros t st H. apply lookup_snoc_Some in H as [[Hlt H]|[-> <-]];
        [left|by right].
      split; [|done]. eapply Forall_lookup_1 in Hw; eauto. }
    split.
    - intros t st H Hlive. destruct (Hold _ _ H) as [[Hs _]|[-> _]]; [|done].
      destruct st; discriminate.
    - intros t t' st' H _. destruct (Hold _ _ H) as [[Hs _]|[_ [=]]].
      discriminate Hs.
    - intros t t' H _. destruct (Hold _ _ H) as [[Hs _]|[_ [=]]].
      discriminate Hs. }
  unfold SessionThread_init in Hm.
  destruct scheduler_id as [sch|].
  - destruct (batch_job_get svc site_id sch) as [bid|e].
    + destruct (session_create svc site_id (Some bid)); [|discriminate].
      eapply Hgen; [|exact Hm]. reflexivity.
    + destruct (is_DoesNotExist e); [|discriminate].
      destruct (session_create svc site_id None); [|discriminate].
      eapply Hgen; [|exact Hm]. reflexivity.
  - destruct (session_create svc site_id None); [|discriminate].
    eapply Hgen; [|exact Hm]. reflexivity.
Qed.

Lemma quiescent_lookup m t st :
  quiescent m = true -> w_timers (world m) !! t = Some st ->
  is_running st = false.
Proof.
  unfold quiescent. rewrite forallb_forall. intros Hq Ht.
  apply list_elem_of_lookup_2, list_elem_of_In, Hq in Ht.
  by destruct (is_running st).
Qed.

(** With no timer thread inside [_schedule_next_tick], cancelling
    [self.timer] leaves only Timers that will not call anything. *)
Lemma cancel_settles m :
  machine_invariant m -> quiescent m = true -> all_settled (step Cancel m).
Proof.
  intros [I1 _ _] Hq. unfold all_settled. simpl. unfold timer_cancel.
  assert (Hrest : forall t st, w_timers (world m) !! t = Some st ->
             t <> timer (self m) -> settled st = true).
  { intros t st Ht Hne. pose proof (quiescent_lookup _ _ _ Hq Ht) as Hr.
    specialize (I1 _ _ Ht). destruct st; try done; by destruct Hne; apply I1. }
  assert (Hins : Forall (fun st => settled st = true)
                        (<[timer (self m) := Cancelled]> (w_timers (world m)))).
  { apply Forall_lookup_2. intros t st Ht.
    apply list_lookup_insert_Some in Ht as [(_ & <- & _)|[Hne Ht]]; eauto. }
  destruct (w_timers (world m) !! timer (self m)) as [st|] eqn:Hs.
  - pose proof (quiescent_lookup _ _ _ Hq Hs) as Hr.
    destruct st; simpl; try exact Hins; try discriminate Hr.
    + apply Forall_lookup_2. intros t st Ht.
      destruct (decide (t = timer (self m))) as [->|Hne]; [|eauto].
      rewrite Hs in Ht. by injection Ht as <-.
    + apply Forall_lookup_2. intros t st Ht.
      destruct (decide (t = timer (self m))) as [->|Hne]; [|eauto].
      rewrite Hs in Ht. by injection Ht as <-.
  - simpl. apply Forall_lookup_2. intros t st Ht.
    destruct (decide (t = timer (self m))) as [->|Hne]; [|eauto]. congruence.
Qed.

Lemma ticks_add_delete m :
  ticks (step Delete m) = ticks m.
Proof.
  unfold ticks. simpl. rewrite filter_app. simpl.
  rewrite filter_cons, filter_nil. simpl. by rewrite app_nil_r.
Qed.

(** Once every Timer is settled, no action brings a tick. *)
Lemma settled_step a m :
  all_settled m -> all_settled (step a m) /\ ticks (step a m) = ticks m.
Proof.
  unfold all_settled. intros Hs. destruct a as [t| |].
  - simpl. unfold step_timer.
    destruct (w_timers (world m) !! t) as [st|] eqn:Ht; [|done].
    eapply Forall_lookup_1 in Hs as Hst; [|exact Ht].
    destruct st as [| | |pc|]; try discriminate Hst; done.
  - simpl. unfold timer_cancel.
    destruct (w_timers (world m) !! timer (self m)) as [st|] eqn:Ht; [|done].
    eapply Forall_lookup_1 in Hs as Hst; [|exact Ht].
    destruct st as [| | |pc|]; try discriminate Hst; done.
  - split; [exact Hs|apply ticks_add_delete].
Qed.

Lemma settled_run acts : forall m,
  all_settled m -> ticks (run acts m) = ticks m.
Proof.
  induction acts as [|a acts IH]; intros m Hs; [reflexivity|].
  destruct (settled_step a m Hs) as [Hs' Ht].
  simpl. rewrite (IH _ Hs'). exact Ht.
Qed.

End SessionFacts.

Section SessionClaims.
Import JobSource Session.
Local Open Scope nat_scope.

Lemma timer_cancel_calls t w : w_calls (timer_cancel t w) = w_calls w.
Proof.
  unfold timer_cancel. by destruct (w_timers w !! t) as [[| | | |]|].
Qed.

Example sample_machine_of_init :
  machine_of (SessionThread_init Samples.sample_service 1 (Some 42%Z)
                                 Samples.empty_world)
  = Some Samples.sample_machine.
Proof. reflexivity. Qed.

(** C7. When a scheduler id is supplied and the batch-job lookup raises
    [DoesNotExist], [__init__] goes on exactly as if no scheduler id had
    been given, after one lookup request and one warning; so when the
    service grants the session and accepts the first tick, the lease
    exists, is bound to no batch job, and its heartbeat timer is waiting. *)
Theorem lookup_failure_degrades
        (svc : Service) (site_id scheduler_id sid : Z) (e : PyExc) (w : World) :
  batch_job_get svc site_id scheduler_id = Raise e ->
  is_DoesNotExist e = true ->
  session_create svc site_id None = Ok sid ->
  session_tick svc sid = Ok tt ->
  SessionThread_init svc site_id (Some scheduler_id) w
  = SessionThread_init svc site_id None
      (add_log (Warning (lookup_warning scheduler_id))
               (add_call (BatchJobGet site_id scheduler_id) w))
  /\ SessionThread_init svc site_id (Some scheduler_id) w
     = (Ok (mkSessionThread sid None (length (w_timers w))),
        mkWorld (w_calls w ++ [BatchJobGet site_id scheduler_id;
                               SessionCreate site_id None;
                               SessionTick sid])
                (w_log w ++ [Warning (lookup_warning scheduler_id)])
                (w_timers w ++ [Waiting])).
Proof.
  intros Hget Hdne Hcreate Htick.
  unfold SessionThread_init. rewrite Hget, Hdne, Hcreate.
  split; [reflexivity|].
  rewrite schedule_next_tick_eq. simpl. rewrite Htick.
  by rewrite <- !app_assoc.
Qed.

Lemma lookup_failure_degrades_witness :
  batch_job_get Samples.sample_service 1 42 = Raise DoesNotExist
  /\ is_DoesNotExist DoesNotExist = true
  /\ session_create Samples.sample_service 1 None = Ok 7%Z
  /\ session_tick Samples.sample_service 7 = Ok tt
  /\ SessionThread_init Samples.sample_service 1 (Some 42%Z) Samples.empty_world
     = SessionThread_init Samples.sample_service 1 None
         (add_log (Warning (lookup_warning 42))
                  (add_call (BatchJobGet 1 42) Samples.empty_world))
  /\ SessionThread_init Samples.sample_service 1 (Some 42%Z) Samples.empty_world
     = (Ok (mkSessionThread 7 None (length (w_timers Samples.empty_world))),
        mkWorld (w_calls Samples.empty_world
                 ++ [BatchJobGet 1 42; SessionCreate 1 None; SessionTick 7])
                (w_log Samples.empty_world ++ [Warning (lookup_warning 42)])
                (w_timers Samples.empty_world ++ [Waiting])).
Proof.
  repeat (split; [reflexivity|]).
  apply (lookup_failure_degrades Samples.sample_service 1 42 7 DoesNotExist
           Samples.empty_world); reflexivity.
Defined.

(** C6 as worded fails twice over.  A second [terminate] sends a second
    delete request.  And when the interval of [self.timer] has run out but
    its thread has not yet replaced [self.timer], [terminate] cancels a
    Timer that already fired: the thread then starts a new Timer and
    ticks after [terminate] has returned. *)
Lemma close_twice_and_late_tick :
  deletes (terminate (terminate Samples.sample_machine))
  = [SessionDelete 7; SessionDelete 7]
  /\ ~ second_close_is_noop Samples.sample_machine
  /\ ticks (run [Step 0; Step 0; Step 0]
                (terminate (run [Step 0] Samples.sample_machine)))
     = ticks (terminate (run [Step 0] Samples.sample_machine))
       ++ [SessionTick 7]
  /\ w_timers (world (run [Step 0; Step 0; Step 0]
                          (terminate (run [Step 0] Samples.sample_machine))))
     = [Finished; Waiting]
  /\ ~ silent_after_close (run [Step 0] Samples.sample_machine).
Proof.
  split; [reflexivity|]. split.
  { intros H. apply (f_equal (fun w => length (w_calls w))) in H.
    vm_compute in H. discriminate H. }
  split; [reflexivity|]. split; [reflexivity|].
  intros H. specialize (H [Step 0; Step 0; Step 0]).
  apply (f_equal (@length _)) in H. vm_compute in H. discriminate H.
Qed.

(** C6, amended. [terminate] cancels the Timer [self.timer] refers to and
    sends one delete request for the session, on every call: a second
    call sends a second request.  If no timer thread is inside
    [_schedule_next_tick] when [terminate] runs, no tick is sent from then
    on, whatever happens later. *)
Theorem close_when_quiescent
        (svc : Service) (site_id : Z) (scheduler_id : option Z)
        (w0 : World) (m0 : Machine) (acts later : list Action) :
  Forall (fun st => settled st = true) (w_timers w0) ->
  machine_of (SessionThread_init svc site_id scheduler_id w0) = Some m0 ->
  quiescent (run acts m0) = true ->
  w_calls (world (terminate (run acts m0)))
  = w_calls (world (run acts m0))
    ++ [SessionDelete (session (self (run acts m0)))]
  /\ w_calls (world (terminate (terminate (run acts m0))))
     = w_calls (world (run acts m0))
       ++ [SessionDelete (session (self (run acts m0)));
           SessionDelete (session (self (run acts m0)))]
  /\ ticks (run later (terminate (run acts m0))) = ticks (run acts m0).
Proof.
  intros Hw Hinit Hq.
  set (m := run acts m0) in *.
  assert (Inv : machine_invariant m)
    by (apply invariant_run; eapply invariant_init; eauto).
  split; [|split].
  - unfold terminate. simpl. by rewrite timer_cancel_calls.
  - unfold terminate. simpl. rewrite timer_cancel_calls. simpl.
    rewrite timer_cancel_calls. by rewrite <- app_assoc.
  - pose proof (cancel_settles m Inv Hq) as Hs.
    destruct (settled_step Delete _ Hs) as [Hs' Ht].
    change (step Delete (step Cancel m)) with (terminate m) in Hs', Ht.
    rewrite (settled_run later _ Hs'), Ht.
    unfold ticks. simpl. by rewrite timer_cancel_calls.
Qed.

Lemma close_when_quiescent_witness :
  Forall (fun st => settled st = true) (w_timers Samples.empty_world)
  /\ machine_of (SessionThread_init Samples.sample_service 1 (Some 42%Z)
                                    Samples.empty_world)
     = Some Samples.sample_machine
  /\ quiescent (run [Step 0; Step 0; Step 0; Step 0] Samples.sample_machine)
     = true
  /\ ticks (run [Step 1; Step 1; Cancel; Step 1; Step 0]
                (terminate (run [Step 0; Step 0; Step 0; Step 0]
                                Samples.sample_machine)))
     = ticks (run [Step 0; Step 0; Step 0; Step 0] Samples.sample_machine).
Proof.
  split; [constructor|]. split; [reflexivity|]. split; [reflexivity|].
  apply (close_when_quiescent Samples.sample_service 1 (Some 42%Z)
           Samples.empty_world Samples.sample_machine
           [Step 0; Step 0; Step 0; Step 0]
           [Step 1; Step 1; Cancel; Step 1; Step 0]).
  - constructor.
  - reflexivity.
  - reflexivity.
Defined.

End SessionClaims.

(** ** The processing worker *)

Section ProcessingFacts.
Import Processing.
Context {S : Type}.

Lemma chdir_dir p e : is_dir e p = true -> chdir p e = Ok (set_cwd p e).
Proof. intros H. unfold chdir. by rewrite H. Qed.

Lemma chdir_spec p e e1 :
  chdir p e = Ok e1 -> e1 = set_cwd p e /\ is_dir e p = true.
Proof.
  unfold chdir. destruct (is_dir e p); [by intros [= <-]|].
  by destruct (is_file e p).
Qed.

Lemma is_dir_app_l e d extra :
  is_dir e d = true -> is_dir (set_dirs (dirs e ++ extra) e) d = true.
Proof.
  unfold is_dir. simpl. rewrite !bool_decide_eq_true, elem_of_app. tauto.
Qed.

(** Setting the scope up changes into [workdir] and touches neither the
    stream bindings nor an existing directory. *)
Lemma job_context_enter_spec workdir e e1 :
  job_context_enter workdir e = Ok e1 ->
  cwd e1 = workdir /\ stdout e1 = stdout e /\ stderr e1 = stderr e
  /\ written e1 = written e
  /\ (forall d, is_dir e d = true -> is_dir e1 d = true).
Proof.
  unfold job_context_enter.
  destruct (chdir workdir e) as [e0|x] eqn:Hc.
  - intros [= <-]. apply chdir_spec in Hc as [-> _]. by repeat split.
  - destruct (is_FileNotFoundError x); [|discriminate].
    unfold mkdir_parents.
    destruct (is_file e workdir); [discriminate|].
    destruct (existsb _ _); [discriminate|].
    intros Hc2. apply chdir_spec in Hc2 as [-> _]. repeat split.
    intros d Hd. by apply (is_dir_app_l e d).
Qed.

Lemma open_append_spec p e fp e2 :
  open_append p e = Ok (fp, e2) ->
  fp = FileStream p /\ cwd e2 = cwd e /\ stdout e2 = stdout e
  /\ stderr e2 = stderr e /\ dirs e2 = dirs e /\ written e2 = written e.
Proof.
  unfold open_append.
  destruct (is_dir e p); [discriminate|].
  destruct (is_file e (parent p)); [discriminate|].
  destruct (negb _); [discriminate|].
  intros [= <- <-]. by destruct (is_file e p).
Qed.

Lemma scope_env_spec workdir name e e_in :
  scope_env workdir name e = Ok e_in ->
  cwd e_in = workdir
  /\ stdout e_in = FileStream (workdir ++ [name])
  /\ stderr e_in = FileStream (workdir ++ [name])
  /\ written e_in = written e
  /\ is_dir e (cwd e) = true
  /\ (forall d, is_dir e d = true -> is_dir e_in d = true).
Proof.
  unfold scope_env, getcwd.
  destruct (is_dir e (cwd e)) eqn:Hd; [|discriminate].
  destruct (job_context_enter workdir e) as [e1|] eqn:He; [|discriminate].
  apply job_context_enter_spec in He as (Hc & Ho & He' & Hw & Hdirs).
  destruct (open_append _ e1) as [[fp e2]|] eqn:Hop; [|discriminate].
  apply open_append_spec in Hop as (-> & Hc2 & _ & _ & Hd2 & Hw2).
  intros [= <-]. simpl. repeat split; try congruence.
  intros d H. apply Hdirs in H. unfold is_dir in *. simpl. by rewrite Hd2.
Qed.

(** Once the scope is set up, [job_context] is the body followed by the
    [finally] clause. *)
Lemma job_context_entered workdir name (body : Block S) s e e_in :
  scope_env workdir name e = Ok e_in ->
  job_context workdir name body s e
  = job_context_finally (cwd e) (stdout e) (stderr e) (body s e_in).
Proof.
  unfold scope_env, job_context, job_context_try, getcwd.
  destruct (is_dir e (cwd e)); [|discriminate].
  destruct (job_context_enter workdir e) as [e1|]; [|discriminate].
  destruct (open_append _ e1) as [[fp e2]|]; [|discriminate].
  by intros [= <-].
Qed.

(** When it cannot be set up, the body does not run and the bindings are as
    before. *)
Lemma job_context_not_entered workdir name (body : Block S) s e x :
  scope_env workdir name e = Raise x ->
  exists e',
    job_context workdir name body s e = (Raise x, s, e')
    /\ cwd e' = cwd e /\ stdout e' = stdout e /\ stderr e' = stderr e
    /\ written e' = written e.
Proof.
  unfold scope_env, job_context, job_context_try, getcwd.
  destruct (is_dir e (cwd e)) eqn:Hd; [|intros [= <-]; by exists e].
  destruct (job_context_enter workdir e) as [e1|y] eqn:He;
    [|intros [= <-]; by exists e].
  apply job_context_enter_spec in He as (Hc & Ho & He' & Hw & Hdirs).
  destruct (open_append _ e1) as [[fp e2]|y]; [discriminate|].
  intros [= <-]. simpl. rewrite (chdir_dir _ _ (Hdirs _ Hd)).
  eexists. split; [reflexivity|]. simpl. by rewrite Hw.
Qed.

Lemma job_context_finally_restores old_cwd old_out old_err
      (r : Res unit * S * ProcEnv) :
  is_dir (snd r) old_cwd = true ->
  job_context_finally old_cwd old_out old_err r
  = (fst (fst r), snd (fst r),
     set_stderr old_err (set_stdout old_out (set_cwd old_cwd (snd r)))).
Proof.
  destruct r as [[o s] e]. simpl. intros H. by rewrite (chdir_dir _ _ H).
Qed.

End ProcessingFacts.

Section TransitionFacts.
Import Processing.

Lemma transition_table_Some app s f :
  transition_table app !! s = Some f ->
  f ∈ callables app /\ is_triggering s = true.
Proof.
  unfold transition_table, callables, is_triggering, triggering_states.
  simpl. rewrite bool_decide_eq_true.
  repeat (rewrite lookup_insert_Some; intros [[<- <-]|[_ H]];
          [split; set_solver|revert H]).
  by rewrite lookup_empty.
Qed.

Lemma transition_table_None app s :
  is_triggering s = false -> transition_table app !! s = None.
Proof.
  intros H. destruct (transition_table app !! s) as [f|] eqn:E; [|done].
  apply transition_table_Some in E as [_ E]. congruence.
Qed.

(** Dispatch on a state outside the table: [KeyError], nothing touched. *)
Lemma transition_KeyError app job e :
  is_triggering (job_state job) = false ->
  transition app job e = (Raise (KeyError (job_state job)), job, e).
Proof.
  intros H. unfold transition. by rewrite transition_table_None.
Qed.

Lemma transition_keeps_dir app d :
  Forall (fun f => keeps_dir d (call f)) (callables app) ->
  keeps_dir d (transition app).
Proof.
  intros Hall job e Hd. unfold transition.
  destruct (transition_table app !! job_state job) as [f|] eqn:E; [|exact Hd].
  apply transition_table_Some in E as [Hf _].
  rewrite Forall_forall in Hall. specialize (Hall f Hf).
  set (e1 := stdout_write _ e).
  specialize (Hall job e1 Hd).
  destruct (call f job e1) as [[[u|exc] job'] e2]; simpl in *; [exact Hall|].
  by destruct (is_Exception exc).
Qed.

Lemma failure_data_nonempty f exc : failure_data f exc <> ∅.
Proof. unfold failure_data. apply insert_non_empty. Qed.

Lemma failure_data_exception f exc :
  failure_data f exc !! "exception" = Some (exc_text exc).
Proof. unfold failure_data. apply lookup_insert_eq. Qed.

Lemma failure_data_message f exc :
  failure_data f exc !! "message"
  = Some ("An exception occured in " +:+ func_repr f).
Proof.
  unfold failure_data. rewrite lookup_insert_ne by done. apply lookup_insert_eq.
Qed.

End TransitionFacts.

Section ProcessingClaims.
Import Processing.

Example sample_scope_env_computed :
  scope_env (joinpath Samples.sample_data_path
                      (job_workdir (Samples.sample_job 10 "STAGED_IN")))
            "balsam.log" Samples.sample_env
  = Ok Samples.sample_scope_env.
Proof. reflexivity. Qed.

(** C9, as stated, fails.  A worker started in [/run] serves two Jobs of
    an application whose methods remove [/run].  For Job 10 the method
    raises [ValueError], which [transition] handles, so the body of the
    scope returns normally; for Job 11 the method calls [sys.exit(1)] and
    [SystemExit] leaves the body.  On both exit paths [os.chdir(old_cwd)]
    raises [FileNotFoundError] in the [finally] clause, the two
    assignments after it are not reached, and the worker is left in the
    Job's directory with stdout and stderr still bound to the Job's log
    file. *)
Theorem worker_scope_not_restored :
  cwd (env Samples.launch_worker) = ["run"]
  /\ stdout (env Samples.launch_worker) = StdStream "stdout"
  /\ stderr (env Samples.launch_worker) = StdStream "stderr"
  /\ (exists e_in,
        scope_env ["site"; "data"; "data"; "job10"] "balsam.log"
                  (env Samples.launch_worker) = Ok e_in
        /\ fst (fst (transition Samples.cleaning_app
                                (Samples.sample_job 10 "STAGED_IN") e_in))
           = Ok tt)
  /\ (exists e_in,
        scope_env ["site"; "data"; "data"; "job11"] "balsam.log"
                  (env Samples.launch_worker) = Ok e_in
        /\ fst (fst (transition Samples.cleaning_app
                                (Samples.sample_job 11 "RUN_DONE") e_in))
           = Raise (mkExc FromBaseExceptionOnly "SystemExit" "1"))
  /\ (let r := process_job Samples.cleaning_cache Samples.sample_data_path
                           (Samples.sample_job 10 "STAGED_IN")
                           Samples.launch_worker in
      fst (fst r) = Raise (FileNotFoundError "chdir")
      /\ cwd (env (snd r)) = ["site"; "data"; "data"; "job10"]
      /\ stdout (env (snd r))
         = FileStream ["site"; "data"; "data"; "job10"; "balsam.log"]
      /\ stderr (env (snd r))
         = FileStream ["site"; "data"; "data"; "job10"; "balsam.log"])
  /\ (let r := process_job Samples.cleaning_cache Samples.sample_data_path
                           (Samples.sample_job 11 "RUN_DONE")
                           Samples.launch_worker in
      fst (fst r) = Raise (FileNotFoundError "chdir")
      /\ cwd (env (snd r)) = ["site"; "data"; "data"; "job11"]
      /\ stdout (env (snd r))
         = FileStream ["site"; "data"; "data"; "job11"; "balsam.log"]
      /\ stderr (env (snd r))
         = FileStream ["site"; "data"; "data"; "job11"; "balsam.log"]).
Proof.
  split; [reflexivity|]. split; [reflexivity|]. split; [reflexivity|].
  split; [eexists; split; reflexivity|].
  split; [eexists; split; reflexivity|].
  split; vm_compute; by repeat split.
Qed.

(** C9. For a Job whose application is cached, the worker runs
    [transition] inside [job_context]: when the scope can be set up, the
    transition starts with the Job's working directory as current
    directory and with stdout and stderr bound to [balsam.log] in it, and
    its result, normal or exceptional, is what leaves the scope; when it
    cannot, the exception leaves with the Job untouched.  On each of
    these exit paths the worker's environment afterwards has the prior
    current directory and the prior stdout and stderr, provided the prior
    current directory still exists when the transition is over, so that
    [os.chdir(old_cwd)] in the [finally] clause returns. *)
Theorem worker_scope_is_restored
        (app_cache : gmap Z ApplicationDefinition) (data_path : AbsPath)
        (app : ApplicationDefinition) (job : Job) (w : Worker) :
  app_cache !! job_app_id job = Some app ->
  (forall e_in,
      scope_env (joinpath data_path (job_workdir job)) "balsam.log" (env w)
      = Ok e_in ->
      is_dir (snd (transition app job e_in)) (cwd (env w)) = true) ->
  let workdir := joinpath data_path (job_workdir job) in
  let res := job_context workdir "balsam.log" (transition app) job (env w) in
  env (snd (process_job app_cache data_path job w)) = snd res
  /\ cwd (snd res) = cwd (env w)
  /\ stdout (snd res) = stdout (env w)
  /\ stderr (snd res) = stderr (env w)
  /\ match scope_env workdir "balsam.log" (env w) with
     | Ok e_in =>
         cwd e_in = workdir
         /\ stdout e_in = FileStream (workdir ++ ["balsam.log"])
         /\ stderr e_in = FileStream (workdir ++ ["balsam.log"])
         /\ fst res = fst (transition app job e_in)
     | Raise x => fst res = (Raise x, job)
     end.
Proof.
  intros Hcache Hkeep workdir res.
  split.
  { unfold process_job. rewrite Hcache. fold workdir. fold res.
    by destruct res as [[[u|x] job1] e1]. }
  destruct (scope_env workdir "balsam.log" (env w)) as [e_in|x] eqn:Hs.
  - pose proof (scope_env_spec _ _ _ _ Hs) as (Hc & Ho & He & _).
    pose proof (Hkeep e_in Hs) as Hk.
    unfold res. rewrite (job_context_entered _ _ _ _ _ _ Hs).
    rewrite job_context_finally_restores by exact Hk.
    simpl. repeat split; try done.
    by destruct (transition app job e_in) as [[o job1] e1].
  - destruct (job_context_not_entered workdir "balsam.log" (transition app)
                job (env w) x Hs) as (e' & Hj & Hc & Ho & He & _).
    unfold res. rewrite Hj. simpl. by repeat split.
Qed.

Lemma worker_scope_is_restored_witness :
  Samples.sample_cache !! job_app_id (Samples.sample_job 10 "STAGED_IN")
  = Some Samples.sample_app
  /\ (forall e_in,
         scope_env (joinpath Samples.sample_data_path
                             (job_workdir (Samples.sample_job 10 "STAGED_IN")))
                   "balsam.log" (env Samples.sample_worker)
         = Ok e_in ->
         is_dir (snd (transition Samples.sample_app
                                 (Samples.sample_job 10 "STAGED_IN") e_in))
                (cwd (env Samples.sample_worker)) = true)
  /\ cwd (snd (job_context
                 (joinpath Samples.sample_data_path
                           (job_workdir (Samples.sample_job 10 "STAGED_IN")))
                 "balsam.log" (transition Samples.sample_app)
                 (Samples.sample_job 10 "STAGED_IN")
                 (env Samples.sample_worker)))
     = cwd (env Samples.sample_worker).
Proof.
  assert (Hdir : forall e_in,
             scope_env (joinpath Samples.sample_data_path
                          (job_workdir (Samples.sample_job 10 "STAGED_IN")))
                       "balsam.log" (env Samples.sample_worker)
             = Ok e_in ->
             is_dir (snd (transition Samples.sample_app
                                     (Samples.sample_job 10 "STAGED_IN") e_in))
                    (cwd (env Samples.sample_worker)) = true).
  { intros e_in H. vm_compute in H. injection H as <-. reflexivity. }
  assert (Hcache : Samples.sample_cache
                     !! job_app_id (Samples.sample_job 10 "STAGED_IN")
                   = Some Samples.sample_app) by reflexivity.
  split; [exact Hcache|]. split; [exact Hdir|].
  exact (proj1 (proj2 (worker_scope_is_restored
                         Samples.sample_cache Samples.sample_data_path
                         Samples.sample_app (Samples.sample_job 10 "STAGED_IN")
                         Samples.sample_worker Hcache Hdir))).
Defined.

(** C10. A Job dequeued in a state outside the four triggering states:
    the dispatch of [transition] raises [KeyError] with the Job and the
    environment untouched; in the worker the Job keeps its state, no status
    record is put on the queue, and an exception leaves [run_worker], so
    the loop serves no further Job.  That exception is the [KeyError] of
    the dispatch whenever the application is cached and the scope can be
    set up. *)
Theorem untriggered_state_stops_worker
        (app_cache : gmap Z ApplicationDefinition) (data_path : AbsPath)
        (job : Job) (w : Worker) (rest : list WorkerEvent) :
  is_triggering (job_state job) = false ->
  EXIT_FLAG w = false ->
  (forall app e,
      transition app job e = (Raise (KeyError (job_state job)), job, e))
  /\ exists x w',
      process_job app_cache data_path job w = (Raise x, job, w')
      /\ status_queue w' = status_queue w
      /\ run_worker app_cache data_path (Dequeued job :: rest) w
         = WorkerCrashed x w'
      /\ match app_cache !! job_app_id job with
         | None => x = KeyError (pretty (job_app_id job))
         | Some _ =>
             match scope_env (joinpath data_path (job_workdir job))
                             "balsam.log" (env w) with
             | Ok _ => x = KeyError (job_state job)
             | Raise y => x = y
             end
         end.
Proof.
  intros Hstate Hflag.
  split; [intros app e; by apply transition_KeyError|].
  assert (Hrun : forall x w',
             process_job app_cache data_path job w = (Raise x, job, w') ->
             run_worker app_cache data_path (Dequeued job :: rest) w
             = WorkerCrashed x w').
  { intros x w' H. simpl. by rewrite Hflag, H. }
  unfold process_job in *.
  destruct (app_cache !! job_app_id job) as [app|] eqn:Hcache.
  - set (workdir := joinpath data_path (job_workdir job)) in *.
    destruct (scope_env workdir "balsam.log" (env w)) as [e_in|y] eqn:Hs.
    + pose proof (scope_env_spec _ _ _ _ Hs) as (_ & _ & _ & _ & Hd & Hdirs).
      revert Hrun.
      rewrite (job_context_entered _ _ (transition app) job _ _ Hs).
      rewrite transition_KeyError by done.
      rewrite job_context_finally_restores by (simpl; auto).
      simpl. intros Hrun. do 2 eexists.
      split; [reflexivity|]. split; [reflexivity|].
      split; [by apply Hrun|reflexivity].
    + destruct (job_context_not_entered workdir "balsam.log" (transition app)
                  job (env w) y Hs) as (e' & Hj & _).
      revert Hrun. rewrite Hj. intros Hrun. do 2 eexists.
      split; [reflexivity|]. split; [reflexivity|].
      split; [by apply Hrun|reflexivity].
  - do 2 eexists. split; [reflexivity|]. split; [reflexivity|].
    split; [by apply Hrun|reflexivity].
Qed.

Lemma untriggered_state_stops_worker_witness :
  is_triggering (job_state (Samples.sample_job 10 "PREPROCESSED")) = false
  /\ EXIT_FLAG Samples.sample_worker = false
  /\ exists x w',
      process_job Samples.sample_cache Samples.sample_data_path
                  (Samples.sample_job 10 "PREPROCESSED") Samples.sample_worker
      = (Raise x, Samples.sample_job 10 "PREPROCESSED", w')
      /\ status_queue w' = status_queue Samples.sample_worker
      /\ run_worker Samples.sample_cache Samples.sample_data_path
           [Dequeued (Samples.sample_job 10 "PREPROCESSED");
            Dequeued (Samples.sample_job 11 "RUN_DONE")]
           Samples.sample_worker
         = WorkerCrashed x w'
      /\ match Samples.sample_cache
               !! job_app_id (Samples.sample_job 10 "PREPROCESSED") with
         | None =>
             x = KeyError (pretty (job_app_id (Samples.sample_job 10 "PREPROCESSED")))
         | Some _ =>
             match scope_env
                     (joinpath Samples.sample_data_path
                        (job_workdir (Samples.sample_job 10 "PREPROCESSED")))
                     "balsam.log" (env Samples.sample_worker) with
             | Ok _ => x = KeyError (job_state (Samples.sample_job 10 "PREPROCESSED"))
             | Raise y => x = y
             end
         end.
Proof.
  split; [reflexivity|]. split; [reflexivity|].
  apply (untriggered_state_stops_worker Samples.sample_cache
           Samples.sample_data_path (Samples.sample_job 10 "PREPROCESSED")
           Samples.sample_worker
           [Dequeued (Samples.sample_job 11 "RUN_DONE")]);
    reflexivity.
Defined.

(** C1, as stated, fails.  [sys.exit(1)] in [postprocess] raises
    [SystemExit], which is not an [Exception]: [transition] does not
    handle it, the Job keeps its state, no status record is put, and the
    exception leaves [run_worker] with the next Job unserved.  And where
    [preprocess] removes the directory the worker was started in before
    it raises [ValueError], [transition] handles the exception and marks
    the Job FAILED, but [os.chdir(old_cwd)] raises as the scope is left:
    again no status record is put and the worker is left. *)
Theorem failed_transition_can_stop_worker :
  (exists e_in,
     scope_env ["site"; "data"; "data"; "job11"] "balsam.log"
               (env Samples.sample_worker) = Ok e_in
     /\ fst (transition Samples.exiting_app
                        (Samples.sample_job 11 "RUN_DONE") e_in)
        = (Raise (mkExc FromBaseExceptionOnly "SystemExit" "1"),
           Samples.sample_job 11 "RUN_DONE"))
  /\ (exists w',
        run_worker Samples.exiting_cache Samples.sample_data_path
                   [Dequeued (Samples.sample_job 11 "RUN_DONE");
                    Dequeued (Samples.sample_job 12 "STAGED_IN")]
                   Samples.sample_worker
        = WorkerCrashed (mkExc FromBaseExceptionOnly "SystemExit" "1") w'
        /\ status_queue w' = [])
  /\ (exists e_in,
        scope_env ["site"; "data"; "data"; "job10"] "balsam.log"
                  (env Samples.launch_worker) = Ok e_in
        /\ fst (fst (call (preprocess Samples.cleaning_app)
                          (Samples.sample_job 10 "STAGED_IN")
                          (stdout_write
                             ("#BALSAM "
                              +:+ running_msg (preprocess Samples.cleaning_app)
                                              (Samples.sample_job 10 "STAGED_IN")
                              +:+ newline)
                             e_in)))
           = Raise (mkExc FromException "ValueError" "bad input")
        /\ fst (fst (transition Samples.cleaning_app
                                (Samples.sample_job 10 "STAGED_IN") e_in))
           = Ok tt
        /\ job_state (snd (fst (transition Samples.cleaning_app
                                  (Samples.sample_job 10 "STAGED_IN") e_in)))
           = JobState_failed)
  /\ (exists w',
        run_worker Samples.cleaning_cache Samples.sample_data_path
                   [Dequeued (Samples.sample_job 10 "STAGED_IN");
                    Dequeued (Samples.sample_job 12 "STAGED_IN")]
                   Samples.launch_worker
        = WorkerCrashed (FileNotFoundError "chdir") w'
        /\ status_queue w' = []).
Proof.
  split; [eexists; split; reflexivity|].
  split; [eexists; split; reflexivity|].
  split; [eexists; repeat split; reflexivity|].
  eexists; split; reflexivity.
Qed.

(** C1. A Job is dequeued while the flag is down; its application is
    cached, its state selects the method [f], the scope is set up, and [f]
    raises an [Exception].  Then no exception leaves [transition]: the Job
    gets state FAILED and the two-entry state data whose entry "exception"
    is [str(exc)].  When moreover the directory the worker was in before
    the Job still exists after [f], the worker puts one status record for
    the Job on the queue, with state FAILED and that (non-empty) state
    data, and it goes on with the events that follow, flag still down. *)
Theorem failed_transition_is_isolated
        (app_cache : gmap Z ApplicationDefinition) (data_path : AbsPath)
        (app : ApplicationDefinition) (f : Callable)
        (job job' : Job) (w : Worker) (e_in e_out : ProcEnv) (exc : PyExc)
        (rest : list WorkerEvent) :
  EXIT_FLAG w = false ->
  app_cache !! job_app_id job = Some app ->
  transition_table app !! job_state job = Some f ->
  scope_env (joinpath data_path (job_workdir job)) "balsam.log" (env w)
  = Ok e_in ->
  call f job (stdout_write ("#BALSAM " +:+ running_msg f job +:+ newline) e_in)
  = (Raise exc, job', e_out) ->
  is_Exception exc = true ->
  let failed :=
    set_state_data (Some (failure_data f exc)) (set_state JobState_failed job') in
  let record :=
    mkStatus (job_id job') JobState_failed (S (clock w))
             (failure_data f exc) in
  let w' :=
    mkWorker false
             (set_stderr (stderr (env w))
                (set_stdout (stdout (env w)) (set_cwd (cwd (env w)) e_out)))
             (status_queue w ++ [record])
             (S (S (clock w))) in
  transition app job e_in = (Ok tt, failed, e_out)
  /\ job_state failed = JobState_failed
  /\ job_state_data failed = Some (failure_data f exc)
  /\ failure_data f exc !! "exception" = Some (exc_text exc)
  /\ failure_data f exc <> ∅
  /\ (is_dir e_out (cwd (env w)) = true ->
      process_job app_cache data_path job w
      = (Ok tt, set_state_timestamp (Some (clock w)) failed, w')
      /\ run_worker app_cache data_path (Dequeued job :: rest) w
         = run_worker app_cache data_path rest w').
Proof.
  intros Hflag Hcache Htable Hs Hcall Hexc failed record w'.
  assert (Htr : transition app job e_in = (Ok tt, failed, e_out)).
  { unfold transition. by rewrite Htable, Hcall, Hexc. }
  split; [exact Htr|]. split; [reflexivity|]. split; [reflexivity|].
  split; [apply failure_data_exception|].
  split; [apply failure_data_nonempty|].
  intros Hdir.
  assert (Hproc : process_job app_cache data_path job w
                  = (Ok tt, set_state_timestamp (Some (clock w)) failed, w')).
  { unfold process_job. rewrite Hcache.
    rewrite (job_context_entered _ _ _ _ _ _ Hs), Htr.
    rewrite job_context_finally_restores by exact Hdir.
    simpl. unfold w', record, state_data_or_empty.
    rewrite bool_decide_eq_false_2 by apply failure_data_nonempty.
    by rewrite Hflag. }
  split; [exact Hproc|].
  simpl. by rewrite Hflag, Hproc.
Qed.

Lemma failed_transition_is_isolated_witness :
  EXIT_FLAG Samples.sample_worker = false
  /\ Samples.sample_cache !! job_app_id (Samples.sample_job 10 "STAGED_IN")
     = Some Samples.sample_app
  /\ transition_table Samples.sample_app
       !! job_state (Samples.sample_job 10 "STAGED_IN")
     = Some Samples.failing_preprocess
  /\ scope_env (joinpath Samples.sample_data_path
                         (job_workdir (Samples.sample_job 10 "STAGED_IN")))
               "balsam.log" (env Samples.sample_worker)
     = Ok Samples.sample_scope_env
  /\ is_Exception (mkExc FromException "ValueError" "bad input") = true
  /\ is_dir (stdout_write
               ("#BALSAM "
                +:+ running_msg Samples.failing_preprocess
                                (Samples.sample_job 10 "STAGED_IN")
                +:+ newline)
               Samples.sample_scope_env)
            (cwd (env Samples.sample_worker)) = true
  /\ run_worker Samples.sample_cache Samples.sample_data_path
       [Dequeued (Samples.sample_job 10 "STAGED_IN");
        Dequeued (Samples.sample_job 11 "RUN_DONE")]
       Samples.sample_worker
     = run_worker Samples.sample_cache Samples.sample_data_path
         [Dequeued (Samples.sample_job 11 "RUN_DONE")]
         (mkWorker false
            (set_stderr (stderr (env Samples.sample_worker))
               (set_stdout (stdout (env Samples.sample_worker))
                  (set_cwd (cwd (env Samples.sample_worker))
                     (stdout_write
                        ("#BALSAM "
                         +:+ running_msg Samples.failing_preprocess
                                         (Samples.sample_job 10 "STAGED_IN")
                         +:+ newline)
                        Samples.sample_scope_env))))
            (status_queue Samples.sample_worker
             ++ [mkStatus 10 JobState_failed 1
                   (failure_data Samples.failing_preprocess
                      (mkExc FromException "ValueError" "bad input"))])
            2).
Proof.
  assert (Hcache : Samples.sample_cache
                     !! job_app_id (Samples.sample_job 10 "STAGED_IN")
                   = Some Samples.sample_app) by reflexivity.
  assert (Htable : transition_table Samples.sample_app
                     !! job_state (Samples.sample_job 10 "STAGED_IN")
                   = Some Samples.failing_preprocess) by reflexivity.
  assert (Hs : scope_env (joinpath Samples.sample_data_path
                            (job_workdir (Samples.sample_job 10 "STAGED_IN")))
                         "balsam.log" (env Samples.sample_worker)
               = Ok Samples.sample_scope_env) by reflexivity.
  assert (Hdir : is_dir (stdout_write
                           ("#BALSAM "
                            +:+ running_msg Samples.failing_preprocess
                                            (Samples.sample_job 10 "STAGED_IN")
                            +:+ newline)
                           Samples.sample_scope_env)
                        (cwd (env Samples.sample_worker)) = true)
    by reflexivity.
  split; [reflexivity|]. split; [exact Hcache|]. split; [exact Htable|].
  split; [exact Hs|]. split; [reflexivity|]. split; [exact Hdir|].
  pose proof (failed_transition_is_isolated
                Samples.sample_cache Samples.sample_data_path Samples.sample_app
                Samples.failing_preprocess
                (Samples.sample_job 10 "STAGED_IN")
                (Samples.sample_job 10 "STAGED_IN")
                Samples.sample_worker Samples.sample_scope_env
                (stdout_write
                   ("#BALSAM "
                    +:+ running_msg Samples.failing_preprocess
                                    (Samples.sample_job 10 "STAGED_IN")
                    +:+ newline)
                   Samples.sample_scope_env)
                (mkExc FromException "ValueError" "bad input")
                [Dequeued (Samples.sample_job 11 "RUN_DONE")]
                eq_refl Hcache Htable Hs eq_refl eq_refl) as H.
  cbv zeta in H. destruct H as (_ & _ & _ & _ & _ & H).
  exact (proj2 (H Hdir)).
Defined.

(** After the failed Job the sample worker serves the next one: two
    status records, FAILED for Job 10 and POSTPROCESSED for Job 11. *)
Example sample_worker_serves_on :
  match run_worker Samples.sample_cache Samples.sample_data_path
          [Dequeued (Samples.sample_job 10 "STAGED_IN");
           Dequeued (Samples.sample_job 11 "RUN_DONE")]
          Samples.sample_worker with
  | StillServing w =>
      map (fun r => (status_id r, status_state r)) (status_queue w)
      = [(10, "FAILED"); (11, "POSTPROCESSED")]
      /\ cwd (env w) = ["site"]
      /\ stdout (env w) = StdStream "stdout"
  | _ => False
  end.
Proof. vm_compute. repeat split. Qed.

End ProcessingClaims.

(* ===================================================================== *)
(** * Part III: further properties of the code                            *)
(* ===================================================================== *)

(** ** Node ranges, in general *)

Section NodeRangesMore.
Import NodeRanges.

(** X1. For every [num_nodes >= 1] the buckets of [get_node_ranges]
    partition the node counts: each [k] of [1..num_nodes] lies in exactly
    one bucket, and no other [k] lies in any. *)
Theorem get_node_ranges_partition (num_nodes prefetch_factor single : Z) :
  1 <= num_nodes ->
  exists l,
    get_node_ranges num_nodes prefetch_factor single = Some l
    /\ forall k, cover_count l k
                 = if (1 <=? k) && (k <=? num_nodes) then 1%nat else 0%nat.
Proof.
  intros Hn. exists (buckets num_nodes prefetch_factor single). split.
  - unfold get_node_ranges, get_node_ranges_fuel.
    apply node_ranges_loop_closed; lia.
  - intros k. apply (buckets_partition (Z.to_nat num_nodes)); lia.
Qed.

Lemma get_node_ranges_partition_witness :
  1 <= 13
  /\ exists l,
      get_node_ranges 13 3 7 = Some l
      /\ forall k, cover_count l k
                   = if (1 <=? k) && (k <=? 13) then 1%nat else 0%nat.
Proof.
  split; [lia|]. apply (get_node_ranges_partition 13 3 7). lia.
Defined.

(** X2. For [num_nodes >= 1] the result has [floor(log2 num_nodes) + 1]
    buckets; its first bucket ends at [num_nodes] and its last is the
    single-node bucket. *)
Theorem get_node_ranges_length (num_nodes prefetch_factor single : Z) :
  1 <= num_nodes ->
  exists l,
    get_node_ranges num_nodes prefetch_factor single = Some l
    /\ length l = S (Z.to_nat (Z.log2 num_nodes))
    /\ option_map bucket_upper (head l) = Some num_nodes
    /\ last l = Some (1, 1, single).
Proof.
  intros Hn. exists (buckets num_nodes prefetch_factor single). split.
  { unfold get_node_ranges, get_node_ranges_fuel.
    apply node_ranges_loop_closed; lia. }
  unfold buckets, num_buckets. split; [|split].
  - by rewrite length_map, length_seq.
  - cbn [seq map head option_map]. f_equal.
    unfold bucket_at, bucket_upper, remaining. simpl. apply Z.div_1_r.
  - replace (S (Z.to_nat (Z.log2 num_nodes)))
      with (Z.to_nat (Z.log2 num_nodes) + 1)%nat by lia.
    rewrite seq_app, map_app. simpl. rewrite last_snoc. f_equal.
    unfold bucket_at. rewrite remaining_last by done. reflexivity.
Qed.

Lemma get_node_ranges_length_witness :
  1 <= 13
  /\ exists l,
      get_node_ranges 13 3 7 = Some l
      /\ length l = S (Z.to_nat (Z.log2 13))
      /\ option_map bucket_upper (head l) = Some 13
      /\ last l = Some (1, 1, 7).
Proof.
  split; [lia|]. apply (get_node_ranges_length 13 3 7). lia.
Defined.

(** X3. With a negative [num_nodes] the loop of [get_node_ranges] never
    ends: no number of iterations gives a result.  With [num_nodes = 0]
    it returns the empty list at once. *)
Theorem get_node_ranges_negative_diverges
        (num_nodes prefetch_factor single : Z) (fuel : nat) :
  num_nodes < 0 ->
  get_node_ranges_fuel fuel num_nodes prefetch_factor single = None
  /\ get_node_ranges_fuel fuel 0 prefetch_factor single = Some [].
Proof.
  intros Hn. split.
  - unfold get_node_ranges_fuel. by apply node_ranges_loop_negative.
  - by destruct fuel.
Qed.

Lemma get_node_ranges_negative_diverges_witness :
  -1 < 0
  /\ get_node_ranges_fuel 1000 (-1) 2 1 = None
  /\ get_node_ranges_fuel 1000 0 2 1 = Some [].
Proof.
  split; [lia|]. apply (get_node_ranges_negative_diverges (-1) 2 1 1000). lia.
Defined.

End NodeRangesMore.

(** ** The prefetching source: [get_jobs] and the loop of [_run] *)

Section FetchLoopMore.
Import JobSource Session SourceRun.

Lemma take_jobs_spec n : forall q, take_jobs n q = (take n q, drop n q).
Proof.
  induction n as [|n IH]; intros [|j q]; simpl; try reflexivity.
  by rewrite IH.
Qed.

(** X4. [FixedDepthJobSource.get_jobs] hands out the oldest Jobs of the
    queue in order and leaves the rest: fetched followed by remaining is
    the queue before, and the number fetched is [min(max_num_jobs, qsize)]
    (none for a non-positive [max_num_jobs]); no request is sent. *)
Theorem fixed_depth_get_jobs_fifo (max_num : Z) (st : LoopState) :
  fst (fixed_depth_get_jobs max_num st)
    ++ loop_queue (snd (fixed_depth_get_jobs max_num st))
  = loop_queue st
  /\ Z.of_nat (length (fst (fixed_depth_get_jobs max_num st)))
     = Z.min (Z.max max_num 0) (qsize st)
  /\ loop_calls (snd (fixed_depth_get_jobs max_num st)) = loop_calls st.
Proof.
  unfold fixed_depth_get_jobs, qsize. rewrite take_jobs_spec. simpl.
  split; [apply take_drop|]. split; [|reflexivity].
  rewrite length_take. lia.
Qed.

Lemma get_jobs_calls n st :
  loop_calls (snd (fixed_depth_get_jobs n st)) = loop_calls st.
Proof. unfold fixed_depth_get_jobs. by rewrite take_jobs_spec. Qed.

Lemma get_jobs_qsize n st :
  qsize (snd (fixed_depth_get_jobs n st)) <= qsize st.
Proof.
  unfold fixed_depth_get_jobs, qsize. rewrite take_jobs_spec. simpl.
  rewrite length_drop. lia.
Qed.

Lemma fetch_iteration_qsize self now reply st :
  within_request reply ->
  qsize (snd (fetch_iteration self now reply st))
  <= Z.max (fd_prefetch_depth self) (qsize st).
Proof.
  intros Hr. unfold fetch_iteration.
  destruct (negb (fetch_count self st =? 0)) eqn:E; simpl; [|lia].
  destruct (reply _) as [jobs|e] eqn:Hreply; simpl; [|unfold qsize; simpl; lia].
  apply Hr in Hreply; [|simpl; unfold fetch_count; lia]. simpl in Hreply.
  unfold qsize in *. simpl. rewrite put_all_app, length_app.
  unfold fetch_count, qsize in *. lia.
Qed.

(** X5. If the service never hands out more Jobs than a request asks for,
    the queue of the prefetching source never grows beyond
    [prefetch_depth] (or beyond the size it started with, if that was
    larger), whatever cycles, consumers and signals follow. *)
Theorem prefetch_queue_bounded (self : FixedDepthJobSource)
        (events : list LoopEvent) (flag : bool) (st : LoopState) :
  Forall event_within_request events ->
  qsize (loop_outcome_state (run_loop self events flag st))
  <= Z.max (fd_prefetch_depth self) (qsize st).
Proof.
  intros Hall. revert flag st.
  induction Hall as [|ev events Hev Hall IH]; intros flag st; simpl; [lia|].
  destruct ev as [now reply|n|].
  - destruct flag; simpl; [lia|].
    pose proof (fetch_iteration_qsize self now reply st Hev) as Hq.
    destruct (fetch_iteration self now reply st) as [[u|e] st']; simpl in *.
    + specialize (IH false st'). lia.
    + lia.
  - specialize (IH flag (snd (fixed_depth_get_jobs n st))).
    pose proof (get_jobs_qsize n st). lia.
  - apply IH.
Qed.

Lemma prefetch_queue_bounded_witness :
  Forall event_within_request
         [Cycle 5%Q Samples.sample_reply; Consumed 2;
          Cycle 6%Q Samples.sample_reply; Cycle 7%Q Samples.sample_reply]
  /\ qsize (loop_outcome_state
              (run_loop Samples.sample_source
                        [Cycle 5%Q Samples.sample_reply; Consumed 2;
                         Cycle 6%Q Samples.sample_reply;
                         Cycle 7%Q Samples.sample_reply]
                        false Samples.sample_loop_state))
     <= Z.max (fd_prefetch_depth Samples.sample_source)
              (qsize Samples.sample_loop_state).
Proof.
  assert (Hr : within_request Samples.sample_reply).
  { intros req jobs Hpos [= <-]. rewrite length_take. simpl. lia. }
  assert (Hall : Forall event_within_request
                        [Cycle 5%Q Samples.sample_reply; Consumed 2;
                         Cycle 6%Q Samples.sample_reply;
                         Cycle 7%Q Samples.sample_reply]).
  { repeat constructor; exact Hr. }
  split; [exact Hall|].
  apply (prefetch_queue_bounded Samples.sample_source _ false
           Samples.sample_loop_state Hall).
Defined.


Lemma fetch_iteration_calls self now reply st :
  loop_calls (snd (fetch_iteration self now reply st)) = loop_calls st
  \/ (loop_calls (snd (fetch_iteration self now reply st))
      = loop_calls st
        ++ [SessionAcquire (loop_session st)
              (_get_acquire_parameters self now (fetch_count self st))]
      /\ 1 <= fetch_count self st <= fd_prefetch_depth self).
Proof.
  unfold fetch_iteration.
  destruct (negb (fetch_count self st =? 0)) eqn:E; simpl; [|by left].
  right. split; [by destruct (reply _)|].
  unfold fetch_count, qsize in *. lia.
Qed.

(** X7. Every request the loop sends is an acquisition request built by
    [_get_acquire_parameters] from the source's own settings, for at
    least 1 and at most [prefetch_depth] Jobs; the loop sends nothing
    else. *)
Theorem loop_sends_only_bounded_requests (self : FixedDepthJobSource)
        (events : list LoopEvent) (flag : bool) (st : LoopState) :
  exists sent,
    loop_calls (loop_outcome_state (run_loop self events flag st))
    = loop_calls st ++ sent
    /\ Forall (request_of self) sent.
Proof.
  revert flag st.
  induction events as [|ev events IH]; intros flag st; simpl.
  { exists []. by rewrite app_nil_r. }
  destruct ev as [now reply|n|].
  - destruct flag; simpl; [exists []; by rewrite app_nil_r|].
    pose proof (fetch_iteration_calls self now reply st) as Hc.
    destruct (fetch_iteration self now reply st) as [[u|e] st'] eqn:Hf;
      simpl in *.
    + destruct (IH false st') as (sent & Hs & Hall).
      destruct Hc as [Hc|[Hc Hn]]; rewrite Hs, Hc.
      * by exists sent.
      * eexists (_ :: sent). rewrite <- app_assoc. split; [reflexivity|].
        constructor; [|exact Hall]. do 3 eexists. split; [reflexivity|exact Hn].
    + destruct Hc as [Hc|[Hc Hn]]; rewrite Hc.
      * exists []. by rewrite app_nil_r.
      * eexists [_]. split; [reflexivity|].
        constructor; [|constructor]. do 3 eexists. split; [reflexivity|exact Hn].
  - destruct (IH flag (snd (fixed_depth_get_jobs n st))) as (sent & Hs & Hall).
    exists sent. rewrite Hs. split; [|exact Hall]. f_equal.
    apply get_jobs_calls.
  - apply IH.
Qed.

End FetchLoopMore.

(** ** [_run] as a whole *)

Section RunMore.
Import JobSource Session SourceRun.











End RunMore.

(** ** Remaining wall time: rounding and sign *)

Section WallTimeMore.
Import JobSource.
Local Open Scope Q_scope.





End WallTimeMore.

(** ** The session lease: creation and heartbeat *)

Section SessionMore.
Import JobSource Session.
Local Open Scope nat_scope.

(** A timer thread that has fired runs [_schedule_next_tick] to its end:
    one new Timer, waiting, is [self.timer]; one tick was sent. *)
Lemma callback_completes m t :
  w_timers (world m) !! t = Some (Running AtNewTimer) ->
  run [Step t; Step t; Step t] m
  = mkMachine
      (mkSessionThread (session (self m)) (session_batch_job_id (self m))
                       (length (w_timers (world m))))
      (mkWorld (w_calls (world m) ++ [SessionTick (session (self m))])
               (w_log (world m))
               (<[t := Finished]> (w_timers (world m)) ++ [Waiting])).
Proof.
  intros Ht. pose proof (lookup_lt_Some _ _ _ Ht) as Hlt.
  destruct m as [[sid bj tm] [calls log ts]]. simpl in *.
  unfold run. simpl. unfold step_timer at 3. simpl. rewrite Ht. simpl.
  unfold set_timer_state, set_world, set_timers. simpl.
  assert (E1 : <[t := Running AtStart]> (ts ++ [Created])
               = <[t := Running AtStart]> ts ++ [Created])
    by (by rewrite insert_app_l).
  rewrite E1.
  unfold step_timer at 2. simpl.
  rewrite lookup_app_l by (by rewrite length_insert).
  rewrite list_lookup_insert_eq by done. simpl.
  unfold timer_start. simpl.
  assert (E2 : (<[t := Running AtStart]> ts ++ [Created]) !! length ts
               = Some Created).
  { apply list_lookup_middle. by rewrite length_insert. }
  rewrite E2. simpl.
  assert (E3 : <[length ts := Waiting]> (<[t := Running AtStart]> ts ++ [Created])
               = <[t := Running AtStart]> ts ++ [Waiting]).
  { rewrite <- (length_insert ts t (Running AtStart)) at 1. apply insert_last. }
  rewrite E3.
  unfold set_timer_state, set_world, set_timers. simpl.
  rewrite insert_app_l by (by rewrite length_insert).
  rewrite list_insert_insert_eq.
  unfold step_timer. simpl.
  rewrite lookup_app_l by (by rewrite length_insert).
  rewrite list_lookup_insert_eq by done. simpl.
  unfold add_call, set_timer_state, set_world, set_timers. simpl.
  rewrite insert_app_l by (by rewrite length_insert).
  by rewrite list_insert_insert_eq.
Qed.

(** X11. What [SessionThread.__init__] leaves behind.  When it returns,
    the service has granted the session, one new heartbeat Timer is
    waiting and is [self.timer], and the first tick was the last request
    sent.  When it raises, either nothing was armed and no tick was sent
    (the lookup or the creation of the session failed), or the session
    was granted and it is the first tick that raised: then a heartbeat
    Timer is left waiting behind the failed constructor. *)
Theorem session_init_outcomes (svc : Service) (site_id : Z)
        (scheduler_id : option Z) (w : World) :
  match fst (SessionThread_init svc site_id scheduler_id w) with
  | Ok s =>
      session_create svc site_id (session_batch_job_id s) = Ok (session s)
      /\ w_timers (snd (SessionThread_init svc site_id scheduler_id w))
         = w_timers w ++ [Waiting]
      /\ timer s = length (w_timers w)
      /\ last (w_calls (snd (SessionThread_init svc site_id scheduler_id w)))
         = Some (SessionTick (session s))
  | Raise e =>
      (w_timers (snd (SessionThread_init svc site_id scheduler_id w))
       = w_timers w
       /\ filter (fun c => is_tick c = true)
                 (w_calls (snd (SessionThread_init svc site_id scheduler_id w)))
          = filter (fun c => is_tick c = true) (w_calls w))
      \/ (exists sid bj,
             session_create svc site_id bj = Ok sid
             /\ session_tick svc sid = Raise e
             /\ w_timers (snd (SessionThread_init svc site_id scheduler_id w))
                = w_timers w ++ [Waiting]
             /\ last (w_calls (snd (SessionThread_init svc site_id
                                                      scheduler_id w)))
                = Some (SessionTick sid))
  end.
Proof.
  assert (Hcreate : forall bj w1,
    w_timers w1 = w_timers w ->
    filter (fun c => is_tick c = true) (w_calls w1)
    = filter (fun c => is_tick c = true) (w_calls w) ->
    let r := match session_create svc site_id bj with
             | Raise e => (Raise e, add_call (SessionCreate site_id bj) w1)
             | Ok sid =>
                 _schedule_next_tick svc (mkSessionThread sid bj 0)
                   (add_call (SessionCreate site_id bj) w1)
             end in
    match fst r with
    | Ok s =>
        session_create svc site_id (session_batch_job_id s) = Ok (session s)
        /\ w_timers (snd r) = w_timers w ++ [Waiting]
        /\ timer s = length (w_timers w)
        /\ last (w_calls (snd r)) = Some (SessionTick (session s))
    | Raise e =>
        (w_timers (snd r) = w_timers w
         /\ filter (fun c => is_tick c = true) (w_calls (snd r))
            = filter (fun c => is_tick c = true) (w_calls w))
        \/ (exists sid bj0,
               session_create svc site_id bj0 = Ok sid
               /\ session_tick svc sid = Raise e
               /\ w_timers (snd r) = w_timers w ++ [Waiting]
               /\ last (w_calls (snd r)) = Some (SessionTick sid))
    end).
  { intros bj w1 Ht Hf. simpl.
    destruct (session_create svc site_id bj) as [sid|e] eqn:Hc; simpl.
    - rewrite schedule_next_tick_eq. simpl.
      destruct (session_tick svc sid) as [u|e] eqn:Htick; simpl.
      + by rewrite Ht, last_snoc.
      + right. exists sid, bj. by rewrite Ht, last_snoc.
    - left. split; [exact Ht|].
      rewrite filter_app, filter_cons, filter_nil. simpl.
      by rewrite app_nil_r. }
  unfold SessionThread_init.
  destruct scheduler_id as [sch|].
  - destruct (batch_job_get svc site_id sch) as [bid|e].
    + apply Hcreate; [reflexivity|].
      simpl. rewrite filter_app, filter_cons, filter_nil. simpl.
      by rewrite app_nil_r.
    + destruct (is_DoesNotExist e).
      * apply Hcreate; [reflexivity|].
        simpl. rewrite filter_app, filter_cons, filter_nil. simpl.
        by rewrite app_nil_r.
      * simpl. left. split; [reflexivity|].
        rewrite filter_app, filter_cons, filter_nil. simpl.
        by rewrite app_nil_r.
  - by apply Hcreate.
Qed.

(** X12. Under every interleaving of the timer threads with [cancel()]
    and [delete()], a lease created by [__init__] has at most one Timer
    that is constructed or waiting, and it is the one [self.timer]
    refers to (so [cancel()] reaches it). *)
Theorem at_most_one_pending_timer
        (svc : Service) (site_id : Z) (scheduler_id : option Z)
        (w0 : World) (m0 : Machine) (acts : list Action) :
  Forall (fun st => settled st = true) (w_timers w0) ->
  machine_of (SessionThread_init svc site_id scheduler_id w0) = Some m0 ->
  forall t st,
    w_timers (world (run acts m0)) !! t = Some st ->
    live st = true ->
    t = timer (self (run acts m0)).
Proof.
  intros Hw Hinit.
  assert (Inv : machine_invariant (run acts m0))
    by (apply invariant_run; eapply invariant_init; eauto).
  destruct Inv as [I1 _ _]. exact I1.
Qed.

Lemma at_most_one_pending_timer_witness :
  Forall (fun st => settled st = true) (w_timers Samples.empty_world)
  /\ machine_of (SessionThread_init Samples.sample_service 1 (Some 42%Z)
                                    Samples.empty_world)
     = Some Samples.sample_machine
  /\ w_timers (world (run [Step 0; Step 0; Step 0; Cancel; Step 0]
                          Samples.sample_machine)) !! 1
     = Some Cancelled
  /\ forall t st,
      w_timers (world (run [Step 0; Step 0; Step 0] Samples.sample_machine))
        !! t = Some st ->
      live st = true ->
      t = timer (self (run [Step 0; Step 0; Step 0] Samples.sample_machine)).
Proof.
  split; [constructor|]. split; [reflexivity|]. split; [reflexivity|].
  apply (at_most_one_pending_timer Samples.sample_service 1 (Some 42%Z)
           Samples.empty_world Samples.sample_machine [Step 0; Step 0; Step 0]).
  - constructor.
  - reflexivity.
Defined.

(** X13. One turn of the heartbeat: when the Timer [self.timer] refers to
    is waiting and its thread runs [_schedule_next_tick] undisturbed,
    exactly one tick is sent for the session, the old Timer is finished,
    and one new Timer is waiting as [self.timer]. *)
Theorem heartbeat_turn (m : Machine) :
  w_timers (world m) !! timer (self m) = Some Waiting ->
  run [Step (timer (self m)); Step (timer (self m));
       Step (timer (self m)); Step (timer (self m))] m
  = mkMachine
      (mkSessionThread (session (self m)) (session_batch_job_id (self m))
                       (length (w_timers (world m))))
      (mkWorld (w_calls (world m) ++ [SessionTick (session (self m))])
               (w_log (world m))
               (<[timer (self m) := Finished]> (w_timers (world m))
                ++ [Waiting])).
Proof.
  intros Ht. pose proof (lookup_lt_Some _ _ _ Ht) as Hlt.
  set (t := timer (self m)) in *.
  change (run [Step t; Step t; Step t; Step t] m)
    with (run [Step t; Step t; Step t] (step (Step t) m)).
  assert (E : step (Step t) m = set_timer_state t (Running AtNewTimer) m).
  { simpl. unfold step_timer. by rewrite Ht. }
  rewrite E. rewrite callback_completes.
  - unfold set_timer_state, set_world, set_timers. simpl.
    rewrite length_insert, list_insert_insert_eq. reflexivity.
  - simpl. by apply list_lookup_insert_eq.
Qed.

Lemma heartbeat_turn_witness :
  w_timers (world Samples.sample_machine) !! timer (self Samples.sample_machine)
  = Some Waiting
  /\ run [Step 0; Step 0; Step 0; Step 0] Samples.sample_machine
     = mkMachine
         (mkSessionThread 7 None 1)
         (mkWorld (w_calls (world Samples.sample_machine) ++ [SessionTick 7])
                  (w_log (world Samples.sample_machine))
                  [Finished; Waiting]).
Proof.
  split; [reflexivity|].
  apply (heartbeat_turn Samples.sample_machine). reflexivity.
Defined.

(** X14. [terminate] does not stop a heartbeat in flight: if a timer
    thread has fired but not yet replaced [self.timer] when [terminate]
    runs, that thread goes on to send a tick after the delete request
    and leaves a new Timer waiting as [self.timer]. *)
Theorem terminate_misses_fired_timer (m : Machine) (t : nat) :
  w_timers (world m) !! t = Some (Running AtNewTimer) ->
  w_calls (world (run [Step t; Step t; Step t] (terminate m)))
  = w_calls (world m)
    ++ [SessionDelete (session (self m)); SessionTick (session (self m))]
  /\ w_timers (world (run [Step t; Step t; Step t] (terminate m)))
       !! timer (self (run [Step t; Step t; Step t] (terminate m)))
     = Some Waiting.
Proof.
  intros Ht.
  assert (Ht' : w_timers (world (terminate m)) !! t = Some (Running AtNewTimer)).
  { unfold terminate. simpl. unfold timer_cancel.
    destruct (w_timers (world m) !! timer (self m)) as [st|] eqn:Hs;
      [|exact Ht].
    destruct st; simpl; try exact Ht;
      (rewrite list_lookup_insert_ne; [exact Ht|];
       intros E; rewrite E, Ht in Hs; discriminate). }
  rewrite (callback_completes _ _ Ht'). simpl. split.
  - unfold terminate. simpl. rewrite timer_cancel_calls.
    by rewrite <- app_assoc.
  - apply list_lookup_middle. by rewrite length_insert.
Qed.

Lemma terminate_misses_fired_timer_witness :
  w_timers (world (run [Step 0] Samples.sample_machine)) !! 0
  = Some (Running AtNewTimer)
  /\ w_calls (world (run [Step 0; Step 0; Step 0]
                         (terminate (run [Step 0] Samples.sample_machine))))
     = w_calls (world (run [Step 0] Samples.sample_machine))
       ++ [SessionDelete
             (session (self (run [Step 0] Samples.sample_machine)));
           SessionTick
             (session (self (run [Step 0] Samples.sample_machine)))]
  /\ w_timers (world (run [Step 0; Step 0; Step 0]
                          (terminate (run [Step 0] Samples.sample_machine))))
       !! timer (self (run [Step 0; Step 0; Step 0]
                           (terminate (run [Step 0] Samples.sample_machine))))
     = Some Waiting.
Proof.
  split; [reflexivity|].
  apply (terminate_misses_fired_timer (run [Step 0] Samples.sample_machine) 0).
  reflexivity.
Defined.

End SessionMore.

(** ** [job_context]: what it creates and how it fails *)

Section JobContextMore.
Import Processing.

Lemma ancestors_shorter (p a : AbsPath) :
  a ∈ ancestors p -> (length a < length p)%nat.
Proof.
  revert a. induction p as [|x p IH]; intros a; simpl.
  - intros H. by apply elem_of_nil in H.
  - rewrite elem_of_cons. intros [->|H]; [simpl; lia|].
    apply list_elem_of_In, in_map_iff in H as (b & <- & Hb).
    apply list_elem_of_In, IH in Hb. simpl. lia.
Qed.

Lemma enter_new_dirs workdir e e1 :
  job_context_enter workdir e = Ok e1 ->
  is_dir e1 workdir = true
  /\ files e1 = files e
  /\ forall d, is_dir e1 d = true ->
               is_dir e d = true \/ (length d <= length workdir)%nat.
Proof.
  unfold job_context_enter.
  destruct (chdir workdir e) as [e0|x] eqn:Hc.
  - intros [= <-]. apply chdir_spec in Hc as [-> Hd].
    split; [exact Hd|]. split; [reflexivity|]. intros d H. by left.
  - destruct (is_FileNotFoundError x); [|discriminate].
    unfold mkdir_parents.
    destruct (is_file e workdir); [discriminate|].
    destruct (existsb _ _); [discriminate|].
    intros Hc2. apply chdir_spec in Hc2 as [-> Hd].
    split; [exact Hd|]. split; [reflexivity|].
    intros d. unfold is_dir. simpl.
    rewrite !bool_decide_eq_true, elem_of_app, list_elem_of_filter.
    rewrite elem_of_app, list_elem_of_singleton.
    intros [H|[_ [H| ->]]]; [by left| |right; lia].
    right. apply ancestors_shorter in H. lia.
Qed.

(** X15. When the current directory exists and no file stands where the
    working directory, one of its ancestors, or the log file's name as a
    directory would be, [job_context] sets its scope up: afterwards the
    working directory exists (created with its parents if it was
    missing), the log file exists in it, and nothing that existed before
    is gone. *)
Theorem job_scope_is_created (workdir : AbsPath) (name : string) (e : ProcEnv) :
  is_dir e (cwd e) = true ->
  is_file e workdir = false ->
  existsb (is_file e) (ancestors workdir) = false ->
  is_dir e (workdir ++ [name]) = false ->
  exists e_in,
    scope_env workdir name e = Ok e_in
    /\ is_dir e_in workdir = true
    /\ is_file e_in (workdir ++ [name]) = true
    /\ (forall d, is_dir e d = true -> is_dir e_in d = true)
    /\ (forall f, is_file e f = true -> is_file e_in f = true).
Proof.
  intros Hcwd Hfile Hanc Hlog.
  assert (Henter : exists e1, job_context_enter workdir e = Ok e1).
  { unfold job_context_enter, chdir. rewrite Hfile.
    destruct (is_dir e workdir) eqn:Hd; [by eexists|].
    simpl. unfold mkdir_parents. rewrite Hfile, Hanc.
    assert (Hnew : is_dir (set_dirs (dirs e ++ filter (fun d => d ∉ dirs e)
                                       (ancestors workdir ++ [workdir])) e)
                          workdir = true).
    { unfold is_dir in *. simpl. apply bool_decide_eq_true.
      apply bool_decide_eq_false in Hd.
      rewrite elem_of_app, list_elem_of_filter, elem_of_app,
        list_elem_of_singleton. tauto. }
    rewrite Hnew. by eexists. }
  destruct Henter as [e1 He1].
  pose proof (job_context_enter_spec _ _ _ He1) as (Hc & Ho & He & Hw & Hdirs).
  pose proof (enter_new_dirs _ _ _ He1) as (Hwd & Hfiles & Hnewd).
  assert (Hlog1 : is_dir e1 (workdir ++ [name]) = false).
  { destruct (is_dir e1 (workdir ++ [name])) eqn:E; [|done].
    apply Hnewd in E as [E|E]; [congruence|].
    rewrite length_app in E. simpl in E. lia. }
  assert (Hfile1 : is_file e1 workdir = false).
  { unfold is_file in *. by rewrite Hfiles. }
  unfold scope_env, getcwd. rewrite Hcwd, He1.
  change (joinpath workdir (path_of_name name)) with (workdir ++ [name]).
  unfold open_append. rewrite Hlog1. unfold parent.
  rewrite removelast_last, Hfile1, Hwd. simpl.
  eexists. split; [reflexivity|].
  destruct (is_file e1 (workdir ++ [name])) eqn:Hex; simpl.
  - split; [exact Hwd|]. split; [exact Hex|]. split; [exact Hdirs|].
    intros f Hf. unfold is_file in *. simpl. by rewrite Hfiles.
  - split; [exact Hwd|]. split.
    + unfold is_file. simpl. apply bool_decide_eq_true.
      rewrite elem_of_app, list_elem_of_singleton. by right.
    + split; [exact Hdirs|].
      intros f Hf. unfold is_file in *. simpl.
      apply bool_decide_eq_true. apply bool_decide_eq_true in Hf.
      rewrite elem_of_app. left. by rewrite Hfiles.
Qed.

Lemma job_scope_is_created_witness :
  is_dir Samples.sample_env (cwd Samples.sample_env) = true
  /\ is_file Samples.sample_env ["site"; "data"; "data"; "job10"] = false
  /\ existsb (is_file Samples.sample_env)
             (ancestors ["site"; "data"; "data"; "job10"]) = false
  /\ is_dir Samples.sample_env
            (["site"; "data"; "data"; "job10"] ++ ["balsam.log"]) = false
  /\ exists e_in,
      scope_env ["site"; "data"; "data"; "job10"] "balsam.log"
                Samples.sample_env = Ok e_in
      /\ is_dir e_in ["site"; "data"; "data"; "job10"] = true
      /\ is_file e_in (["site"; "data"; "data"; "job10"] ++ ["balsam.log"])
         = true
      /\ (forall d, is_dir Samples.sample_env d = true -> is_dir e_in d = true)
      /\ (forall f, is_file Samples.sample_env f = true ->
                    is_file e_in f = true).
Proof.
  repeat (split; [reflexivity|]).
  apply (job_scope_is_created ["site"; "data"; "data"; "job10"] "balsam.log"
           Samples.sample_env); reflexivity.
Defined.

End JobContextMore.

Section JobContextFailures.
Import Processing.
Context {S : Type}.

(** X16. If the working directory's path is an existing file,
    [job_context] raises [NotADirectoryError] from [os.chdir]: the
    handler for [FileNotFoundError] does not apply, nothing is created,
    the body does not run and the environment is untouched. *)
Theorem job_context_workdir_is_file
        (workdir : AbsPath) (name : string) (body : Block S)
        (s : S) (e : ProcEnv) :
  is_dir e (cwd e) = true ->
  is_dir e workdir = false ->
  is_file e workdir = true ->
  job_context workdir name body s e
  = (Raise (NotADirectoryError "chdir"), s, e).
Proof.
  intros Hcwd Hd Hf.
  unfold job_context, getcwd, job_context_enter, chdir.
  by rewrite Hcwd, Hd, Hf.
Qed.

(** X17. If the log file's path is an existing directory, [open] raises
    [IsADirectoryError] inside the scope: the body does not run, and the
    [finally] clause changes back, so the environment is exactly as
    before. *)
Theorem job_context_log_is_directory
        (workdir : AbsPath) (name : string) (body : Block S)
        (s : S) (e : ProcEnv) :
  is_dir e (cwd e) = true ->
  is_dir e workdir = true ->
  is_dir e (workdir ++ [name]) = true ->
  job_context workdir name body s e
  = (Raise (IsADirectoryError "open"), s, e).
Proof.
  intros Hcwd Hd Hlog.
  unfold job_context, getcwd, job_context_enter. rewrite Hcwd.
  rewrite (chdir_dir _ _ Hd). unfold job_context_try.
  change (joinpath workdir (path_of_name name)) with (workdir ++ [name]).
  unfold open_append.
  assert (H1 : is_dir (set_cwd workdir e) (workdir ++ [name]) = true)
    by exact Hlog.
  rewrite H1. simpl.
  assert (H2 : is_dir (set_cwd workdir e) (cwd e) = true) by exact Hcwd.
  rewrite (chdir_dir _ _ H2). by destruct e.
Qed.

(** X18. The [finally] clause changes directory before it rebinds the
    streams.  If the directory the process was in is gone when the body
    ends, [os.chdir(old_cwd)] raises [FileNotFoundError]: that exception
    replaces whatever the body returned or raised, and the current
    directory, [sys.stdout] and [sys.stderr] stay as the body left
    them. *)
Theorem job_context_old_cwd_removed
        (workdir : AbsPath) (name : string) (body : Block S)
        (s : S) (e e_in : ProcEnv) :
  scope_env workdir name e = Ok e_in ->
  is_dir (snd (body s e_in)) (cwd e) = false ->
  is_file (snd (body s e_in)) (cwd e) = false ->
  job_context workdir name body s e
  = (Raise (FileNotFoundError "chdir"), snd (fst (body s e_in)),
     snd (body s e_in)).
Proof.
  intros Hs Hd Hf. rewrite (job_context_entered _ _ _ _ _ _ Hs).
  destruct (body s e_in) as [[o s'] e_out]. simpl in *.
  unfold chdir. by rewrite Hd, Hf.
Qed.

End JobContextFailures.

Section JobContextFailureWitnesses.
Import Processing.

Lemma job_context_workdir_is_file_witness :
  is_dir MoreSamples.env_workdir_is_file (cwd MoreSamples.env_workdir_is_file)
  = true
  /\ is_dir MoreSamples.env_workdir_is_file ["site"; "data"] = false
  /\ is_file MoreSamples.env_workdir_is_file ["site"; "data"] = true
  /\ job_context ["site"; "data"] "balsam.log" MoreSamples.wiping_block 0%nat
                 MoreSamples.env_workdir_is_file
     = (Raise (NotADirectoryError "chdir"), 0%nat,
        MoreSamples.env_workdir_is_file).
Proof.
  repeat (split; [reflexivity|]).
  apply (job_context_workdir_is_file ["site"; "data"] "balsam.log"
           MoreSamples.wiping_block 0%nat MoreSamples.env_workdir_is_file);
    reflexivity.
Defined.

Lemma job_context_log_is_directory_witness :
  is_dir MoreSamples.env_log_is_dir (cwd MoreSamples.env_log_is_dir) = true
  /\ is_dir MoreSamples.env_log_is_dir ["site"; "data"] = true
  /\ is_dir MoreSamples.env_log_is_dir (["site"; "data"] ++ ["balsam.log"])
     = true
  /\ job_context ["site"; "data"] "balsam.log" MoreSamples.wiping_block 0%nat
                 MoreSamples.env_log_is_dir
     = (Raise (IsADirectoryError "open"), 0%nat, MoreSamples.env_log_is_dir).
Proof.
  repeat (split; [reflexivity|]).
  apply (job_context_log_is_directory ["site"; "data"] "balsam.log"
           MoreSamples.wiping_block 0%nat MoreSamples.env_log_is_dir);
    reflexivity.
Defined.

Lemma job_context_old_cwd_removed_witness :
  scope_env ["site"; "data"; "data"; "job10"] "balsam.log" Samples.sample_env
  = Ok Samples.sample_scope_env
  /\ is_dir (snd (MoreSamples.wiping_block 0%nat Samples.sample_scope_env))
            (cwd Samples.sample_env) = false
  /\ is_file (snd (MoreSamples.wiping_block 0%nat Samples.sample_scope_env))
             (cwd Samples.sample_env) = false
  /\ job_context ["site"; "data"; "data"; "job10"] "balsam.log"
                 MoreSamples.wiping_block 0%nat Samples.sample_env
     = (Raise (FileNotFoundError "chdir"),
        snd (fst (MoreSamples.wiping_block 0%nat Samples.sample_scope_env)),
        snd (MoreSamples.wiping_block 0%nat Samples.sample_scope_env)).
Proof.
  repeat (split; [reflexivity|]).
  apply (job_context_old_cwd_removed ["site"; "data"; "data"; "job10"]
           "balsam.log" MoreSamples.wiping_block 0%nat Samples.sample_env
           Samples.sample_scope_env); reflexivity.
Defined.

End JobContextFailureWitnesses.

(** ** [transition] and [run_worker]: the other paths *)

Section WorkerMore.
Import Processing Service.






End WorkerMore.

Section WorkerLoopMore.
Import Processing Service.

Lemma flagged_worker_is_idle app_cache data_path events : forall w,
  EXIT_FLAG w = true ->
  run_worker app_cache data_path events w = StillServing w
  \/ run_worker app_cache data_path events w = WorkerExit w.
Proof.
  induction events as [|ev events IH]; intros w Hflag; simpl; [by left|].
  destruct ev as [| |job]; rewrite ?Hflag; try (by right).
  assert (E : sig_handler w = w) by (destruct w; simpl in *; by subst).
  rewrite E. by apply IH.
Qed.


Lemma process_job_queue app_cache data_path job w :
  EXIT_FLAG (snd (process_job app_cache data_path job w)) = EXIT_FLAG w
  /\ match fst (fst (process_job app_cache data_path job w)) with
     | Ok _ => exists record,
         status_queue (snd (process_job app_cache data_path job w))
         = status_queue w ++ [record]
     | Raise _ =>
         status_queue (snd (process_job app_cache data_path job w))
         = status_queue w
     end.
Proof.
  unfold process_job.
  destruct (app_cache !! job_app_id job) as [app|]; [|by split].
  destruct (job_context _ _ _ _ _) as [[[u|x] job1] e1]; simpl; [|by split].
  split; [reflexivity|]. by eexists.
Qed.

(** X23. The status queue only grows, by at most one record for each Job
    dequeued; and as long as no signal has arrived and nothing has
    stopped the worker, every dequeued Job has got exactly one record. *)
Theorem one_status_record_per_job
        (app_cache : gmap Z ApplicationDefinition) (data_path : AbsPath)
        (events : list WorkerEvent) (w : Worker) :
  exists records,
    status_queue (outcome_worker (run_worker app_cache data_path events w))
    = status_queue w ++ records
    /\ (length records
        <= length (filter (fun ev => is_dequeued ev = true) events))%nat
    /\ match run_worker app_cache data_path events w with
       | StillServing w' =>
           EXIT_FLAG w' = false ->
           length records
           = length (filter (fun ev => is_dequeued ev = true) events)
       | _ => True
       end.
Proof.
  revert w. induction events as [|ev events IH]; intros w; simpl.
  { exists []. by rewrite app_nil_r. }
  destruct ev as [| |job].
  - destruct (flagged_worker_is_idle app_cache data_path events (sig_handler w)
                eq_refl) as [-> | ->]; simpl;
      exists []; rewrite app_nil_r, filter_cons; simpl;
      (split; [reflexivity|split; [lia|done]]).
  - rewrite filter_cons. simpl.
    destruct (EXIT_FLAG w); [|apply IH].
    exists []. rewrite app_nil_r. simpl. split; [done|split; [lia|done]].
  - rewrite filter_cons. simpl.
    destruct (EXIT_FLAG w) eqn:Hflag.
    { exists []. rewrite app_nil_r. simpl. split; [done|split; [lia|done]]. }
    pose proof (process_job_queue app_cache data_path job w) as [Hf Hq].
    destruct (process_job app_cache data_path job w) as [[[u|x] job1] w1];
      simpl in *.
    + destruct Hq as [record Hq].
      destruct (IH w1) as (records & Hrec & Hle & Hex).
      exists (record :: records). rewrite Hrec, Hq, <- app_assoc. simpl.
      split; [reflexivity|]. split; [lia|].
      destruct (run_worker app_cache data_path events w1); try done.
      intros Hw'. by rewrite Hex.
    + exists []. rewrite app_nil_r. simpl. split; [done|split; [lia|done]].
Qed.

Lemma build_app_cache_spec loader apps : forall acc cache,
  build_app_cache loader apps acc = Ok cache ->
  (forall id, is_Some (cache !! id)
              <-> is_Some (acc !! id) \/ id ∈ map app_row_id apps)
  /\ (forall pre a post cls,
         apps = pre ++ a :: post ->
         app_row_id a ∉ map app_row_id post ->
         loader (app_row_class_path a) = Ok cls ->
         cache !! app_row_id a = Some cls)
  /\ (forall id, id ∉ map app_row_id apps -> cache !! id = acc !! id).
Proof.
  induction apps as [|a apps IH]; intros acc cache; simpl.
  - intros [= <-]. split; [|split].
    + intros id. split; [by left|]. intros [H|H]; [done|].
      by apply elem_of_nil in H.
    + intros [|??] ????; discriminate.
    + done.
  - destruct (loader (app_row_class_path a)) as [cls0|e] eqn:Hl; [|discriminate].
    intros H. destruct (IH _ _ H) as (Hdom & Hlast & Hout).
    split; [|split].
    + intros id. rewrite Hdom, elem_of_cons.
      destruct (decide (id = app_row_id a)) as [->|Hne].
      * rewrite lookup_insert_eq. split; [by right; left|by left].
      * rewrite lookup_insert_ne by done. tauto.
    + intros pre b post cls Heq Hb Hload.
      destruct pre as [|p pre]; simpl in Heq.
      * injection Heq as <- <-.
        rewrite Hout by exact Hb. rewrite lookup_insert_eq. congruence.
      * injection Heq as <- ->. by eapply Hlast.
    + intros id Hid. rewrite not_elem_of_cons in Hid. destruct Hid as [Hne Hid].
      rewrite Hout by exact Hid. by rewrite lookup_insert_ne.
Qed.

(** X24. The application cache of a [ProcessingService] has an entry
    for exactly the ids of the site's registered apps; where an id is
    registered more than once the last row's class is the one cached;
    and a worker that dequeues a Job of an app that is not registered
    stops on the [KeyError] of the cache lookup, before anything is done
    for the Job. *)
Theorem app_cache_covers_registered_apps
        (site_id prefetch_depth : Z) (apps : list AppRow)
        (load_app_class : string -> Res ApplicationDefinition)
        (data_path : AbsPath) (filter_tags : option (gmap string string))
        (num_workers : Z) (now : Q) (svc : ProcessingService) :
  ProcessingService_init site_id prefetch_depth apps load_app_class data_path
                         filter_tags num_workers now = Ok svc ->
  (forall id, is_Some (svc_app_cache svc !! id) <-> id ∈ map app_row_id apps)
  /\ (forall pre a post cls,
         apps = pre ++ a :: post ->
         app_row_id a ∉ map app_row_id post ->
         load_app_class (app_row_class_path a) = Ok cls ->
         svc_app_cache svc !! app_row_id a = Some cls)
  /\ (forall job w rest,
         EXIT_FLAG w = false ->
         job_app_id job ∉ map app_row_id apps ->
         run_worker (svc_app_cache svc) (svc_data_path svc)
                    (Dequeued job :: rest) w
         = WorkerCrashed (KeyError (pretty (job_app_id job))) w).
Proof.
  unfold ProcessingService_init.
  destruct (build_app_cache load_app_class apps ∅) as [cache|e] eqn:Hb;
    [|discriminate].
  intros [= <-]. simpl.
  destruct (build_app_cache_spec _ _ _ _ Hb) as (Hdom & Hlast & Hout).
  split; [|split; [exact Hlast|]].
  - intros id. rewrite Hdom, lookup_empty. split; [|by right].
    intros [[? [=]]|H]; exact H.
  - intros job w rest Hflag Hid. rewrite Hflag. unfold process_job.
    by rewrite (Hout _ Hid), lookup_empty.
Qed.

Lemma app_cache_covers_registered_apps_witness :
  exists svc,
    ProcessingService_init 1 3 MoreSamples.sample_rows MoreSamples.sample_loader
                           Samples.sample_data_path None 5 0%Q = Ok svc
    /\ svc_app_cache svc !! 2 = Some Samples.exiting_app
    /\ (forall id, is_Some (svc_app_cache svc !! id)
                   <-> id ∈ map app_row_id MoreSamples.sample_rows).
Proof.
  eexists. split; [reflexivity|]. split; [reflexivity|].
  apply (app_cache_covers_registered_apps 1 3 MoreSamples.sample_rows
           MoreSamples.sample_loader Samples.sample_data_path None 5 0%Q).
  reflexivity.
Defined.

End WorkerLoopMore.

(** ** [ProcessingService] *)

Section ServiceMore.
Import JobSource Processing SourceRun Service.

(** X25. [start] is guarded by [_started]: the first call starts the
    status updater, then the job source, then every worker in order; any
    later call starts nothing. *)
Theorem start_is_idempotent (s : ProcessingService) (t : Trace) :
  start (fst (start s t)) (snd (start s t)) = start s t
  /\ _started (fst (start s t)) = true
  /\ snd (start s t)
     = t ++ (if _started s then []
             else [(StatusUpdater, Start); (JobSourceProcess, Start)]
                  ++ each_worker Start s).
Proof.
  unfold start. destruct (_started s) eqn:E; simpl.
  - rewrite E. by rewrite app_nil_r.
  - done.
Qed.

Lemma each_worker_split op s i :
  (i < svc_num_workers s)%nat ->
  exists before after,
    each_worker op s = before ++ (WorkerProcess i, op) :: after.
Proof.
  intros Hi. unfold each_worker.
  replace (svc_num_workers s) with (i + S (svc_num_workers s - S i))%nat by lia.
  rewrite seq_app, map_app. simpl. by do 2 eexists.
Qed.

Lemma each_worker_elem op s c o :
  (c, o) ∈ each_worker op s
  <-> o = op /\ exists i, c = WorkerProcess i /\ (i < svc_num_workers s)%nat.
Proof.
  unfold each_worker. rewrite list_elem_of_In, in_map_iff. split.
  - intros (i & [= <- <-] & Hi). apply in_seq in Hi.
    split; [done|]. exists i. split; [done|lia].
  - intros (-> & i & -> & Hi). exists i. split; [done|]. apply in_seq. lia.
Qed.

(** X26. The life of a service that is started, terminated and joined
    once.  The status updater is started before the job source and both
    before any worker; the status updater is told to terminate only
    after every worker has been joined, and [terminate] itself never
    touches it; and exactly the processes that were started are
    joined. *)
Theorem service_lifecycle_order (s : ProcessingService) :
  _started s = false ->
  (forall i, (i < svc_num_workers s)%nat ->
     precedes (StatusUpdater, Start) (JobSourceProcess, Start) (trace_of_life s)
     /\ precedes (JobSourceProcess, Start) (WorkerProcess i, Start)
                 (trace_of_life s)
     /\ precedes (WorkerProcess i, Join) (StatusUpdater, Terminate)
                 (trace_of_life s))
  /\ ((StatusUpdater, Terminate) ∉ trace_until_terminate s)
  /\ (forall c, (c, Start) ∈ trace_of_life s <-> (c, Join) ∈ trace_of_life s).
Proof.
  intros Hs. unfold trace_of_life, trace_until_terminate, start.
  rewrite Hs. simpl.
  change (each_worker Start (set_started true s)) with (each_worker Start s).
  change (each_worker Terminate (set_started true s))
    with (each_worker Terminate s).
  change (each_worker Join (set_started true s)) with (each_worker Join s).
  split; [|split].
  - intros i Hi.
    destruct (each_worker_split Start s i Hi) as (b1 & a1 & E1).
    destruct (each_worker_split Join s i Hi) as (b2 & a2 & E2).
    split; [|split].
    + exists [], [], (each_worker Start s
                      ++ ((JobSourceProcess, Terminate) :: each_worker Terminate s)
                      ++ each_worker Join s
                      ++ [(StatusUpdater, Terminate); (JobSourceProcess, Join);
                          (StatusUpdater, Join)]).
      simpl. by rewrite <- !app_assoc.
    + rewrite E1.
      exists [(StatusUpdater, Start)], b1,
        (a1 ++ ((JobSourceProcess, Terminate) :: each_worker Terminate s)
            ++ each_worker Join s
            ++ [(StatusUpdater, Terminate); (JobSourceProcess, Join);
                (StatusUpdater, Join)]).
      simpl. by rewrite <- !app_assoc.
    + rewrite E2.
      exists ((StatusUpdater, Start) :: (JobSourceProcess, Start)
              :: each_worker Start s
              ++ ((JobSourceProcess, Terminate) :: each_worker Terminate s)
              ++ b2),
        a2, [(JobSourceProcess, Join); (StatusUpdater, Join)].
      simpl. rewrite <- !app_assoc. simpl. by rewrite <- !app_assoc.
  - repeat (rewrite elem_of_cons || rewrite elem_of_app
            || rewrite each_worker_elem || rewrite elem_of_nil).
    intros [H|[H|[[H _]|[H|[_ (i & H & _)]]]]]; discriminate.
  - intros c.
    repeat (rewrite elem_of_cons || rewrite elem_of_app
            || rewrite each_worker_elem || rewrite elem_of_nil).
    split; intros H; decompose [or and ex] H; clear H; subst; try discriminate;
      try match goal with H : (_, _) = (_, _) |- _ => injection H as -> end;
      eauto 12.
Qed.

Lemma service_lifecycle_order_witness :
  _started MoreSamples.sample_processing_service = false
  /\ ((StatusUpdater, Terminate)
      ∉ trace_until_terminate MoreSamples.sample_processing_service)
  /\ precedes (WorkerProcess 2, Join) (StatusUpdater, Terminate)
              (trace_of_life MoreSamples.sample_processing_service).
Proof.
  assert (Hs : _started MoreSamples.sample_processing_service = false)
    by reflexivity.
  pose proof (service_lifecycle_order MoreSamples.sample_processing_service Hs)
    as (Horder & Hterm & _).
  split; [exact Hs|]. split; [exact Hterm|].
  apply (Horder 2%nat). simpl. lia.
Defined.

End ServiceMore.

Section ServiceRequests.
Import JobSource Processing SourceRun Service.

(** X27. The job source of a [ProcessingService] asks for Jobs in
    exactly the states [transition] can dispatch: a state is among the
    requested ones if and only if the dispatch table, for any
    application, has a method for it.  Its requests carry no wall-time
    limit and no node limits, are not serial-only, and carry the
    service's filter tags (none when [filter_tags] is [None]). *)
Theorem service_requests_dispatchable_states
        (site_id prefetch_depth : Z) (apps : list AppRow)
        (load_app_class : string -> Res ApplicationDefinition)
        (data_path : AbsPath) (filter_tags : option (gmap string string))
        (num_workers : Z) (start_time : Q) (svc : ProcessingService) :
  ProcessingService_init site_id prefetch_depth apps load_app_class data_path
                         filter_tags num_workers start_time = Ok svc ->
  (forall app state,
      state ∈ fd_states (svc_job_source svc)
      <-> is_Some (transition_table app !! state))
  /\ (forall now n,
         states (_get_acquire_parameters (svc_job_source svc) now n)
         = processing_states
         /\ max_wall_time_min (_get_acquire_parameters (svc_job_source svc) now n)
            = None
         /\ max_nodes_per_job (_get_acquire_parameters (svc_job_source svc) now n)
            = None
         /\ max_aggregate_nodes
              (_get_acquire_parameters (svc_job_source svc) now n) = None
         /\ serial_only (_get_acquire_parameters (svc_job_source svc) now n)
            = false
         /\ JobSource.filter_tags
              (_get_acquire_parameters (svc_job_source svc) now n)
            = default ∅ filter_tags).
Proof.
  unfold ProcessingService_init.
  destruct (build_app_cache load_app_class apps ∅) as [cache|e];
    [|discriminate].
  intros [= <-]. simpl. split; [|by intros now n].
  intros app state. unfold processing_states. split.
  - rewrite !elem_of_union, !elem_of_singleton.
    intros [[[-> | ->] | ->] | ->]; by eexists.
  - intros [f Hf]. apply transition_table_Some in Hf as [_ Hf].
    unfold is_triggering, triggering_states in Hf.
    apply bool_decide_eq_true in Hf.
    rewrite !elem_of_cons, elem_of_nil in Hf.
    rewrite !elem_of_union, !elem_of_singleton. tauto.
Qed.

Lemma service_requests_dispatchable_states_witness :
  exists svc,
    ProcessingService_init 1 3 MoreSamples.sample_rows MoreSamples.sample_loader
                           Samples.sample_data_path None 5 0%Q = Ok svc
    /\ (forall app state,
           state ∈ fd_states (svc_job_source svc)
           <-> is_Some (transition_table app !! state)).
Proof.
  eexists. split; [reflexivity|].
  apply (service_requests_dispatchable_states 1 3 MoreSamples.sample_rows
           MoreSamples.sample_loader Samples.sample_data_path None 5 0%Q).
  reflexivity.
Defined.

End ServiceRequests.

(** ** Batch jobs *)

Section BatchJobMore.
Import BatchJob.

Lemma string_app_cons x (a b : string) : String x a +:+ b = String x (a +:+ b).
Proof. reflexivity. Qed.

Lemma string_app_empty_l (a : string) : "" +:+ a = a.
Proof. reflexivity. Qed.

Lemma string_app_assoc (a b c : string) : (a +:+ b) +:+ c = a +:+ b +:+ c.
Proof.
  induction a as [|x a IH]; [reflexivity|].
  by rewrite !string_app_cons, IH.
Qed.

Lemma string_app_empty_r (a : string) : a +:+ "" = a.
Proof.
  induction a as [|x a IH]; [reflexivity|]. by rewrite string_app_cons, IH.
Qed.

Lemma string_app_empty (a b : string) : a +:+ b = "" -> a = "" /\ b = "".
Proof.
  destruct a as [|x a]; [intros H; split; [reflexivity|exact H]|].
  rewrite string_app_cons. discriminate.
Qed.

Lemma tags_text_empty tags : tags_text tags = "" <-> tags = [].
Proof.
  split; [|by intros ->].
  unfold tags_text. destruct tags as [|[k v] [|kv rest]]; [done| |]; simpl.
  - intros H. apply string_app_empty in H as [_ H].
    apply string_app_empty in H as [H _]. discriminate.
  - intros H. apply string_app_empty in H as [H _].
    apply string_app_empty in H as [_ H].
    apply string_app_empty in H as [H _]. discriminate.
Qed.

Lemma cli_args_fold parts : forall acc,
  fold_left (fun args part => args +:+ part_args part) parts acc
  = acc +:+ fold_right (fun part rest => part_args part +:+ rest) "" parts.
Proof.
  induction parts as [|p parts IH]; intros acc; simpl.
  - by rewrite string_app_empty_r.
  - by rewrite IH, string_app_assoc.
Qed.

(** X28. [validate] returns without raising exactly when the queue is an
    allowed one, the node count is at least 1 and within the queue's
    maximum, the wall time is within the queue's maximum, the project is
    an allowed one, the partitions, when there are any, add up to the
    node count, and every optional parameter is one of the allowed
    optional parameters. *)
Theorem validate_accepts_iff
        (self : BatchJobBase) (allowed_queues : gmap string AllowedQueue)
        (allowed_projects : list string)
        (optional_batch_job_params : gmap string string) :
  validate self allowed_queues allowed_projects optional_batch_job_params = None
  <-> exists q,
        allowed_queues !! queue self = Some q
        /\ 1 <= num_nodes self <= max_nodes q
        /\ wall_time_min self <= max_walltime q
        /\ project self ∈ allowed_projects
        /\ (partitions_given self = []
            \/ sum_nodes (partitions_given self) = num_nodes self)
        /\ dom (optional_params self) ⊆ dom optional_batch_job_params.
Proof.
  unfold validate.
  destruct (allowed_queues !! queue self) as [q|]; [|split; [done|]].
  2: { by intros (q & H & _). }
  destruct (Z.ltb_spec (max_nodes q) (num_nodes self)).
  { split; [done|]. intros (q' & [= <-] & ? & _). lia. }
  destruct (Z.ltb_spec (num_nodes self) 1).
  { split; [done|]. intros (q' & [= <-] & ? & _). lia. }
  destruct (Z.ltb_spec (max_walltime q) (wall_time_min self)).
  { split; [done|]. intros (q' & [= <-] & _ & ? & _). lia. }
  case_bool_decide as Hproj; simpl.
  2: { split; [done|]. by intros (q' & _ & _ & _ & ? & _). }
  assert (Hparts : match partitions_given self with
                   | [] => false
                   | _ :: _ => negb (sum_nodes (partitions_given self)
                                     =? num_nodes self)
                   end = false
                   <-> (partitions_given self = []
                        \/ sum_nodes (partitions_given self) = num_nodes self)).
  { destruct (partitions_given self) as [|p ps] eqn:E; [by split; auto|].
    rewrite negb_false_iff, Z.eqb_eq. split; [by right|].
    by intros [?|?]. }
  destruct (partitions_given self) as [|p ps] eqn:E.
  - case_bool_decide as Hex.
    + split; [|done]. intros _. exists q.
      split; [done|]. split; [lia|]. split; [done|]. split; [done|].
      split; [by left|by apply empty_difference_subseteq_L].
    + split; [done|]. intros (q' & _ & _ & _ & _ & _ & Hsub).
      destruct Hex. by apply subseteq_empty_difference_L.
  - destruct (negb (sum_nodes (p :: ps) =? num_nodes self)) eqn:Hsum.
    + split; [done|]. intros (q' & _ & _ & _ & _ & Hp & _).
      apply Hparts in Hp. congruence.
    + case_bool_decide as Hex.
      * split; [|done]. intros _. exists q.
        split; [done|]. split; [lia|]. split; [done|]. split; [done|].
        split; [by apply Hparts|by apply empty_difference_subseteq_L].
      * split; [done|]. intros (q' & _ & _ & _ & _ & _ & Hsub).
        destruct Hex. by apply subseteq_empty_difference_L.
Qed.

(** X29. [partitions_to_cli_args] gives one [" --part mode:nodes"]
    segment for each partition, in the order of the partitions, followed
    by [":"] and the tags as [key=value] joined by [":"] exactly for the
    partitions that have filter tags; without partitions ([None] or the
    empty list) it gives the empty string. *)
Theorem partitions_to_cli_args_segments (self : BatchJobBase) :
  partitions_to_cli_args self
  = fold_right
      (fun part rest =>
         " --part " +:+ part_job_mode part +:+ ":"
         +:+ pretty (part_num_nodes part)
         +:+ match part_filter_tags part with
             | [] => ""
             | tags => ":" +:+ tags_text tags
             end
         +:+ rest)
      "" (partitions_given self).
Proof.
  unfold partitions_to_cli_args.
  assert (Hpart : forall p,
             part_args p
             = " --part " +:+ part_job_mode p +:+ ":"
               +:+ pretty (part_num_nodes p)
               +:+ match part_filter_tags p with
                   | [] => ""
                   | tags => ":" +:+ tags_text tags
                   end).
  { intros p. unfold part_args. cbv zeta. case_bool_decide as Ht.
    - apply tags_text_empty in Ht. rewrite Ht.
      by rewrite string_app_empty_r.
    - destruct (part_filter_tags p) as [|kv tags] eqn:E; [by destruct Ht|].
      by rewrite !string_app_assoc. }
  assert (Hfold : forall parts,
             fold_left (fun args part => args +:+ part_args part) parts ""
             = fold_right
                 (fun part rest =>
                    " --part " +:+ part_job_mode part +:+ ":"
                    +:+ pretty (part_num_nodes part)
                    +:+ match part_filter_tags part with
                        | [] => ""
                        | tags => ":" +:+ tags_text tags
                        end
                    +:+ rest)
                 "" parts).
  { intros parts. rewrite cli_args_fold, string_app_empty_l.
    induction parts as [|p parts IH]; [reflexivity|].
    simpl. rewrite IH, Hpart. by rewrite !string_app_assoc. }
  destruct (partitions_given self) as [|p ps]; [done|apply Hfold].
Qed.

End BatchJobMore.
